(** * Robust statistics and stellar-locus fitting of lsst.pipe.analysis

    A shallow embedding of the numeric core of
    [python/lsst/pipe/analysis/analysis.py] (Analysis.calculateStats,
    Analysis.calculateSysError) and of
    [python/lsst/pipe/analysis/colorAnalysis.py] (the fit of
    colorColorPolyFitPlot, ColorColorDistance.__call__).

    Modelling conventions
    - [np.float64] is IEEE-754 binary64, the primitive [float] of Rocq: NaN,
      infinities, signed zeros, rounding, overflow and underflow are the real
      ones, and every definition below evaluates in the kernel.
    - a one-dimensional [ndarray] is a [list]; a boolean mask is a
      [list bool]; the parallel arrays of one call have equal lengths.
    - a Python exception is the left summand of [result]; the code has no
      [try] around the modelled paths, so an exception ends the call.
    - the numerical routines whose algorithm is iterative (the least-squares
      solve behind [np.polyfit], the eigenvalues behind [np.roots],
      [scipy.optimize.root]) and the two helpers of the package's utils module
      ([orthogonalRegression], [distanceSquaredToPoly]) are arguments of the
      functions that call them: the theorems hold whatever they compute. A
      reference choice for each is given to evaluate the model on concrete
      arrays.
    - plotting, logging and the kernel density estimate of
      colorColorPolyFitPlot are left out. *)

From Stdlib Require Import ZArith List Bool Arith Lia.
From Stdlib Require Uint63 String.
From Stdlib Require Import Floats.
Import ListNotations.

Set Implicit Arguments.
Set Warnings "-inexact-float".

(** ** Exceptions *)

Inductive exn : Type :=
| TypeError
| ValueError
| IndexError
| UnboundLocalError
| LinAlgError
| RuntimeError (nKeep order : nat).

Definition result (A : Type) : Type := (exn + A)%type.

Definition ret {A : Type} (a : A) : result A := inr a.
Definition raise {A : Type} (e : exn) : result A := inl e.
Definition bind {A B : Type} (m : result A) (k : A -> result B) : result B :=
  match m with
  | inl e => inl e
  | inr a => k a
  end.

Notation "x <- m ;; k" := (bind m (fun x => k))
  (at level 61, m at next level, right associativity).

(** ** Arrays and masks *)

(** [a[m]] for a boolean mask [m]. *)
Fixpoint boolIndex {A : Type} (a : list A) (m : list bool) : list A :=
  match a, m with
  | x :: a', b :: m' => if b then x :: boolIndex a' m' else boolIndex a' m'
  | _, _ => []
  end.

(** Element-wise binary operation on two arrays of one length. *)
Fixpoint zipWith {A B C : Type} (f : A -> B -> C) (a : list A) (b : list B) : list C :=
  match a, b with
  | x :: a', y :: b' => f x y :: zipWith f a' b'
  | _, _ => []
  end.

(** [m1 & m2]. *)
Definition maskAnd (m1 m2 : list bool) : list bool := zipWith andb m1 m2.

(** [np.ones_like(xx, dtype=bool)]. *)
Definition onesLike {A : Type} (a : list A) : list bool := map (fun _ => true) a.

(** [m.sum()] of a boolean mask. *)
Definition maskSum (m : list bool) : nat := length (filter (fun b => b) m).

(** [m1] is a subset of [m2], index by index. *)
Definition maskSubset (m1 m2 : list bool) : Prop :=
  forall i, nth i m1 false = true -> nth i m2 false = true.

(** ** Floating point *)

Definition ofNat (n : nat) : float := of_uint63 (Uint63.of_Z (Z.of_nat n)).

(** [np.isfinite]. *)
Definition isfinite (x : float) : bool := is_finite x.

(** [a > b] on floats: false as soon as one side is NaN. *)
Definition gtb (a b : float) : bool := (b <? a)%float.

(** [a.sum()], accumulated from the left. *)
Definition np_sum (a : list float) : float := fold_left PrimFloat.add a 0%float.

(** [a.mean()]: the sum over the length; NaN for an empty array (0/0). *)
Definition np_mean (a : list float) : float := (np_sum a / ofNat (length a))%float.

(** Insertion sort, the order [np.percentile] reads its data in. *)
Fixpoint insertSorted (x : float) (l : list float) : list float :=
  match l with
  | [] => [x]
  | y :: l' => if (x <=? y)%float then x :: l else y :: insertSorted x l'
  end.

Definition sortFloats (a : list float) : list float := fold_right insertSorted [] a.

(** The value of [np.percentile(a, q)] on an array that is not empty, with the
    default linear interpolation, for an integer percentage [q]. The virtual
    index is [q/100 * (N-1)]; its integer and fractional parts are computed
    here in integers, which is exact and agrees with the floating-point index
    for the levels 25, 50 and 75 the source uses. The value is
    [a[lo]*(1-w) + a[hi]*w]. An array that contains a NaN has NaN
    percentiles. *)
Definition percentile (a : list float) (q : nat) : float :=
  if existsb is_nan a then nan
  else
    let n1 := (length a - 1)%nat in
    let s := sortFloats a in
    let lo := (q * n1 / 100)%nat in
    let hi := Nat.min (lo + 1) n1 in
    let w := (ofNat ((q * n1) mod 100) / 100)%float in
    (nth lo s nan * (1 - w) + nth hi s nan * w)%float.

(** [np.percentile(a, q)]: taking from the empty array is an [IndexError];
    otherwise the interpolated value. *)
Definition np_percentile (a : list float) (q : nat) : result float :=
  match a with
  | [] => raise IndexError
  | _ :: _ => ret (percentile a q)
  end.

(** ** analysis.py: Stats and Analysis.calculateStats *)

(** [Stats.dataUsed] is the integer 0 in the empty case and the mask of the
    used entries otherwise. *)
Inductive dataUsed_t : Type :=
| UsedScalar (z : Z)
| UsedMask (m : list bool).

Record Stats : Type := mkStats {
  dataUsed : dataUsed_t;
  num : nat;
  total : nat;
  mean : float;
  stdev : float;
  forcedMean : option float;
  median : float;
  clip : float
}.

(** [selection & np.logical_not(np.abs(quantity - median) > clip)]. *)
Definition goodMask (quantity : list float) (selection : list bool)
    (median clip : float) : list bool :=
  maskAnd selection
    (map (fun q => negb (gtb (abs (q - median)) clip)) quantity).

(** The mean the deviations are taken about:
    [actualMean if forcedMean is None else forcedMean]. *)
Definition activeMean (actualMean : float) (forcedMean : option float) : float :=
  match forcedMean with
  | None => actualMean
  | Some fm => fm
  end.

(** [np.sqrt(((a - mean)**2).mean())]. *)
Definition rmsAbout (a : list float) (m : float) : float :=
  sqrt (np_mean (map (fun q => ((q - m) * (q - m))%float) a)).

(** [Analysis.calculateStats(quantity, selection, forcedMean)];
    [configClip] is [self.config.clip]. [np.percentile] is only called past
    the test [total == 0], on a selection that is not empty, where it returns
    [percentile]. *)
Definition calculateStats (configClip : float) (quantity : list float)
    (selection : list bool) (forcedMean : option float) : Stats :=
  let total := maskSum selection in
  if Nat.eqb total 0 then
    mkStats (UsedScalar 0) 0 0 nan nan (Some nan) nan nan
  else
    let sel := boolIndex quantity selection in
    let q25 := percentile sel 25 in
    let median := percentile sel 50 in
    let q75 := percentile sel 75 in
    let clip := (configClip * 0.74 * (q75 - q25))%float in
    let good := goodMask quantity selection median clip in
    let actualMean := np_mean (boolIndex quantity good) in
    let mean := activeMean actualMean forcedMean in
    let stdev := rmsAbout (boolIndex quantity good) mean in
    mkStats (UsedMask good) (maskSum good) total actualMean stdev forcedMean median clip.

(** ** analysis.py: Analysis.calculateSysError *)

(** The [OptimizeResult] fields the source reads. *)
Record OptimizeResult : Type := mkOptimizeResult {
  success : bool;
  x0 : float;
  message : String.string
}.

(** What the method prints: the warning of a failed solve, and the closing
    line with the three values of [function]. *)
Inductive printed : Type :=
| PrintWarning (msg : String.string)
| PrintCheck (f0 fPlus fMinus : float).

(** The inner [function(sysErr2)]. *)
Definition sysErrFunction (configClip : float) (quantity error : list float)
    (selection : list bool) (forcedMean : option float) (sysErr2 : float) : float :=
  let sigNoise := zipWith (fun q e => (q / sqrt (e * e + sysErr2))%float) quantity error in
  (stdev (calculateStats configClip sigNoise selection forcedMean) - 1)%float.

(** [calculateSysError]; [root f start tol] is [scipy.optimize.root]. The
    value is returned together with what was printed on the way. *)
Definition calculateSysError
    (root : (float -> float) -> float -> float -> OptimizeResult)
    (configClip : float) (quantity error : list float) (selection : list bool)
    (forcedMean : option float) (tol : float) : float * list printed :=
  let function := sysErrFunction configClip quantity error selection forcedMean in
  let result := root function 0%float tol in
  let '(answer, out) :=
    if negb (success result) then (nan, [PrintWarning (message result)])
    else (sqrt (x0 result), []) in
  (answer,
   out ++ [PrintCheck (function (answer * answer)%float)
                      (function ((answer + 0.001) * (answer + 0.001))%float)
                      (function ((answer - 0.001) * (answer - 0.001))%float)]).

(** ** colorAnalysis.py: the fit of colorColorPolyFitPlot *)

(** [np.polyval(p, x)]: Horner's rule, highest degree first. *)
Definition np_polyval (p : list float) (x : float) : float :=
  fold_left (fun acc c => (acc * x + c)%float) p 0%float.

(** [np.polyfit(x, y, deg)]: a [TypeError] for an empty [x], otherwise the
    least-squares solution [lstsq x y deg] (highest degree first). *)
Definition np_polyfit (lstsq : list float -> list float -> nat -> list float)
    (x y : list float) (deg : nat) : result (list float) :=
  match x with
  | [] => raise TypeError
  | _ :: _ => ret (lstsq x y deg)
  end.

(** The optional restrictions of a fit: [xFitRange], [yFitRange],
    [fitLineUpper], [fitLineLower]; [None] where the argument is [None]. *)
Record FitRegion : Type := mkFitRegion {
  xFitRange : option (float * float);
  yFitRange : option (float * float);
  fitLineUpper : option (float * float);
  fitLineLower : option (float * float)
}.

(** [np.ones_like(xx, dtype=bool) if not r else ((v > r[0]) & (v < r[1]))]. *)
Definition selectRange (r : option (float * float)) (xx v : list float) : list bool :=
  match r with
  | None => onesLike xx
  | Some (lo, hi) => map (fun a => gtb a lo && (a <? hi)%float) v
  end.

(** [... else (yy < fitLineUpper[0] + fitLineUpper[1]*xx)]. *)
Definition selectUpperOf (l : option (float * float)) (xx yy : list float) : list bool :=
  match l with
  | None => onesLike xx
  | Some (l0, l1) => zipWith (fun x y => (y <? l0 + l1 * x)%float) xx yy
  end.

(** [... else (yy > fitLineLower[0] + fitLineLower[1]*xx)]. *)
Definition selectLowerOf (l : option (float * float)) (xx yy : list float) : list bool :=
  match l with
  | None => onesLike xx
  | Some (l0, l1) => zipWith (fun x y => gtb y (l0 + l1 * x)%float) xx yy
  end.

(** The padded range [(r[0] - 0.07*(r[1] - r[0]), r[1] + 0.07*(r[1] - r[0]))]. *)
Definition padRange (r : option (float * float)) : option (float * float) :=
  match r with
  | None => None
  | Some (lo, hi) => Some ((lo - 0.07 * (hi - lo))%float, (hi + 0.07 * (hi - lo))%float)
  end.

(** [for sel in [selectXRange, selectYRange, selectUpper, selectLower]: m &= sel]. *)
Definition andAll (m : list bool) (sels : list (list bool)) : list bool :=
  fold_left maskAnd sels m.

(** The four masks of the first iteration. *)
Definition regionMasks (region : FitRegion) (xx yy : list float) : list (list bool) :=
  [ selectRange (xFitRange region) xx xx;
    selectRange (yFitRange region) xx yy;
    selectUpperOf (fitLineUpper region) xx yy;
    selectLowerOf (fitLineLower region) xx yy ].

(** The four masks after the ranges have been padded. *)
Definition paddedMasks (region : FitRegion) (xx yy : list float) : list (list bool) :=
  [ selectRange (padRange (xFitRange region)) xx xx;
    selectRange (padRange (yFitRange region)) xx yy;
    selectUpperOf (fitLineUpper region) xx yy;
    selectLowerOf (fitLineLower region) xx yy ].

(** [dy = yy - np.polyval(poly, xx)]. *)
Definition residuals (poly xx yy : list float) : list float :=
  zipWith (fun x y => (y - np_polyval poly x)%float) xx yy.

(** [q1, q3 = np.percentile(dy[keep], [25, 75])] and
    [clip = rej*0.74*(q3 - q1)]: an [IndexError] when [keep] selects nothing. *)
Definition clipOf (rej : float) (dy : list float) (keep : list bool) : result float :=
  q1 <- np_percentile (boolIndex dy keep) 25 ;;
  q3 <- np_percentile (boolIndex dy keep) 75 ;;
  ret (rej * 0.74 * (q3 - q1))%float.

(** [np.logical_not(np.abs(dy) > clip)]. *)
Definition clipMask (dy : list float) (clip : float) : list bool :=
  map (fun d => negb (gtb (abs d) clip)) dy.

(** A [for] loop over the indices [iis] whose body can raise. *)
Fixpoint forEach {S : Type} (body : nat -> S -> result S) (iis : list nat) (st : S) : result S :=
  match iis with
  | [] => ret st
  | ii :: rest => st' <- body ii st ;; forEach body rest st'
  end.

(** The variables [keep] and [select] the first loop updates. *)
Record KeepState : Type := mkKeepState {
  keep : list bool;
  select : list bool
}.

(** The body of [for ii in range(iterations)] in the branch without
    [closeToVertical]. *)
Definition polyfitRound (lstsq : list float -> list float -> nat -> list float)
    (xx yy : list float) (order : nat) (rej : float) (region : FitRegion)
    (ii : nat) (st : KeepState) : result KeepState :=
  let keep1 := maskAnd (keep st) (select st) in
  poly <- np_polyfit lstsq (boolIndex xx keep1) (boolIndex yy keep1) order ;;
  let dy := residuals poly xx yy in
  clip <- clipOf rej dy keep1 ;;
  let keep2 := clipMask dy clip in
  let select2 :=
    if Nat.eqb ii 0 then andAll (select st) (paddedMasks region xx yy) else select st in
  ret (mkKeepState keep2 select2).

(** The initial polynomial and [keep] mask: the forced guess when
    [closeToVertical], the clipped [np.polyfit] iterations otherwise.
    Subscripting the [None] of a missing [xFitRange] is a [TypeError]; with
    [iterations = 0] the name [ii] read after the loop is unbound. *)
Definition initialFit (lstsq : list float -> list float -> nat -> list float)
    (xx yy : list float) (order iterations : nat) (rej : float)
    (region : FitRegion) (closeToVertical : bool) : result (list float * list bool) :=
  let select0 := andAll (onesLike xx) (regionMasks region xx yy) in
  let keep0 := onesLike xx in
  if closeToVertical then
    let keep1 := maskAnd keep0 select0 in
    match xFitRange region with
    | None => raise TypeError
    | Some (x0, x1) => ret ([10; -10 * (x0 + (x1 - x0) / 3)]%float, keep1)
    end
  else
    st <- forEach (polyfitRound lstsq xx yy order rej region) (seq 0 iterations)
                  (mkKeepState keep0 select0) ;;
    if Nat.eqb iterations 0 then raise UnboundLocalError
    else
      let keep1 := maskAnd (keep st) (select st) in
      let nKeep := maskSum keep1 in
      if Nat.ltb nKeep order then raise (RuntimeError nKeep order)
      else
        poly <- np_polyfit lstsq (boolIndex xx keep1) (boolIndex yy keep1) order ;;
        ret (poly, keep1).

(** The variables [orthRegCoeffs] and [keepOdr] the second loop updates. *)
Record OdrState : Type := mkOdrState {
  orthRegCoeffs : list float;
  keepOdr : list bool
}.

(** The body of [for ii in range(iterations - 1)]; [odr] is
    [orthogonalRegression] of the package's utils module. *)
Definition odrRound (odr : list float -> list float -> nat -> list float -> list float)
    (xx yy : list float) (order : nat) (rej : float) (region : FitRegion)
    (ii : nat) (st : OdrState) : result OdrState :=
  let initialGuess := rev (orthRegCoeffs st) in
  let dy := residuals (orthRegCoeffs st) xx yy in
  clip <- clipOf rej dy (keepOdr st) ;;
  let keep1 := maskAnd (maskAnd (clipMask dy clip) (map isfinite xx)) (map isfinite yy) in
  let keep2 := if Nat.eqb ii 0 then andAll keep1 (paddedMasks region xx yy) else keep1 in
  let nKeepOdr := maskSum keep2 in
  if Nat.ltb nKeepOdr order then raise (RuntimeError nKeepOdr order)
  else
    ret (mkOdrState (odr (boolIndex xx keep2) (boolIndex yy keep2) order initialGuess) keep2).

(** The orthogonal-regression refinement, seeded with [poly]. *)
Definition odrRefine (odr : list float -> list float -> nat -> list float -> list float)
    (xx yy : list float) (order iterations : nat) (rej : float) (region : FitRegion)
    (poly : list float) (keep : list bool) : result OdrState :=
  let initialGuess := rev poly in
  let coeffs := odr (boolIndex xx keep) (boolIndex yy keep) order initialGuess in
  forEach (odrRound odr xx yy order rej region) (seq 0 (iterations - 1))
          (mkOdrState coeffs keep).

(** What the fit of [colorColorPolyFitPlot] computes: the initial polynomial
    with its [keep] mask, and the refined coefficients (the value the function
    returns) with their [keepOdr] mask. *)
Record LocusFit : Type := mkLocusFit {
  poly : list float;
  keepInitial : list bool;
  refined : OdrState
}.

(** [colorColorPolyFitPlot], without the plotting and logging: the
    non-finite points are dropped first, then the initial fit, then the
    refinement. *)
Definition colorColorPolyFitPlot
    (lstsq : list float -> list float -> nat -> list float)
    (odr : list float -> list float -> nat -> list float -> list float)
    (xx yy : list float) (order iterations : nat) (rej : float)
    (region : FitRegion) (closeToVertical : bool) : result LocusFit :=
  let good := maskAnd (map isfinite xx) (map isfinite yy) in
  let xx1 := boolIndex xx good in
  let yy1 := boolIndex yy good in
  pk <- initialFit lstsq xx1 yy1 order iterations rej region closeToVertical ;;
  st <- odrRefine odr xx1 yy1 order iterations rej region (fst pk) (snd pk) ;;
  ret (mkLocusFit (fst pk) (snd pk) st).

(** ** colorAnalysis.py: ColorColorDistance *)

(** [np.trim_zeros(c, trim='f')], and [[0.]] when nothing is left: the
    coefficients a [np.poly1d] holds. *)
Fixpoint trimLeading (c : list float) : list float :=
  match c with
  | [] => []
  | a :: c' => if is_zero a then trimLeading c' else c
  end.

Definition poly1d (c : list float) : list float :=
  match trimLeading c with
  | [] => [0%float]
  | t => t
  end.

(** Zero padding in front, up to length [n]. *)
Definition padFront (n : nat) (c : list float) : list float :=
  repeat 0%float (n - length c) ++ c.

(** [np.polyadd] and [np.polysub] on coefficient arrays. *)
Definition np_polyadd (a b : list float) : list float :=
  let n := Nat.max (length a) (length b) in
  zipWith PrimFloat.add (padFront n a) (padFront n b).

Definition np_polysub (a b : list float) : list float :=
  let n := Nat.max (length a) (length b) in
  zipWith PrimFloat.sub (padFront n a) (padFront n b).

(** [np.polymul]: the full convolution of the coefficient arrays. *)
Fixpoint np_polymul (a b : list float) : list float :=
  match a with
  | [] => []
  | x :: a' =>
      match a' with
      | [] => map (fun y => (x * y)%float) b
      | _ :: _ =>
          np_polyadd (map (fun y => (x * y)%float) b ++ repeat 0%float (length a'))
                     (np_polymul a' b)
      end
  end.

(** [np.polyder] of a [poly1d]: [p[:-1] * arange(n, 0, -1)]. *)
Fixpoint derivCoeffs (c : list float) : list float :=
  match c with
  | [] => []
  | a :: c' =>
      match c' with
      | [] => []
      | _ :: _ => (a * ofNat (length c'))%float :: derivCoeffs c'
      end
  end.

Definition np_polyder (p : list float) : list float := poly1d (derivCoeffs p).

(** [np.poly1d((1, -x)) + (poly - y)*polyDeriv]. *)
Definition rootPolynomial (p polyDeriv : list float) (x y : float) : list float :=
  let shifted := poly1d (np_polysub p (poly1d [y])) in
  let prod := poly1d (np_polymul shifted polyDeriv) in
  poly1d (np_polyadd (poly1d [1; - x]%float) prod).

(** A complex number, real part first. *)
Definition complex : Type := (float * float)%type.

(** [np.real(rr) == rr]. *)
Definition isReal (rr : complex) : bool :=
  (fst rr =? fst rr)%float && (snd rr =? 0)%float.

(** Trailing zeros removed (the leading ones are handled by [trimLeading]). *)
Definition trimTrailing (c : list float) : list float := rev (trimLeading (rev c)).

(** [np.roots(p)]: no root for the zero polynomial; otherwise the leading and
    trailing zeros are stripped, the eigenvalues of the companion matrix with
    first row [-p[1:]/p[0]] are the non-zero roots ([eigvals], which can raise),
    and one zero root is appended per stripped trailing zero. *)
Definition np_roots (eigvals : list float -> result (list complex))
    (p : list float) : result (list complex) :=
  if forallb is_zero p then ret []
  else
    let trailing := length p - length (trimTrailing p) in
    let q := trimLeading (trimTrailing p) in
    nz <- match q with
          | p0 :: (_ :: _) as rest =>
              eigvals (map (fun c => (- c / p0)%float) rest)
          | _ => ret []
          end ;;
    ret (nz ++ repeat (0%float, 0%float) trailing).

(** Python's [min] over a sequence of floats: [ValueError] when it is empty. *)
Definition pyMin (l : list float) : result float :=
  match l with
  | [] => raise ValueError
  | a :: l' => ret (fold_left (fun m d => if (d <? m)%float then d else m) l' a)
  end.

(** The parameters a [ColorColorDistance] is constructed with. *)
Record ColorColorDistance : Type := mkColorColorDistance {
  ccdPoly : list float;
  unitScale : float;
  xMin : option float;
  xMax : option float;
  ccdFitLineUpper : option (float * float);
  ccdFitLineLower : option (float * float)
}.

(** The test that sends a point to [distance2[i] = np.nan; continue]. *)
Definition excluded (self : ColorColorDistance) (x y : float) : bool :=
  negb (isfinite x) || negb (isfinite y)
  || match xMin self with None => false | Some m => (x <? m)%float end
  || match xMax self with None => false | Some m => gtb x m end
  || match ccdFitLineUpper self with
     | None => false
     | Some (l0, l1) => gtb y (l0 + l1 * x)%float
     end
  || match ccdFitLineLower self with
     | None => false
     | Some (l0, l1) => (y <? l0 + l1 * x)%float
     end.

(** The squared distance of one point, the body of the loop;
    [dist2] is [distanceSquaredToPoly] of the package's utils module. *)
Definition pointDistance2 (eigvals : list float -> result (list complex))
    (dist2 : float -> float -> float -> list float -> float)
    (self : ColorColorDistance) (polyDeriv : list float) (x y : float) : result float :=
  if excluded self x y then ret nan
  else
    roots <- np_roots eigvals (rootPolynomial (ccdPoly self) polyDeriv x y) ;;
    pyMin (map (fun rr => dist2 x y (fst rr) (ccdPoly self)) (filter isReal roots)).

(** The loop over the points, in order; the first exception ends it. *)
Fixpoint mapM {A B : Type} (f : A -> result B) (l : list A) : result (list B) :=
  match l with
  | [] => ret []
  | a :: l' => b <- f a ;; bs <- mapM f l' ;; ret (b :: bs)
  end.

(** [ColorColorDistance.__call__(catalog)]; [b1], [b2], [b3] are the columns
    [catalog[self.band1]], [catalog[self.band2]], [catalog[self.band3]]. *)
Definition ccdCall (eigvals : list float -> result (list complex))
    (dist2 : float -> float -> float -> list float -> float)
    (self : ColorColorDistance) (b1 b2 b3 : list float) : result (list float) :=
  let xx := zipWith PrimFloat.sub b1 b2 in
  let yy := zipWith PrimFloat.sub b2 b3 in
  let polyDeriv := np_polyder (ccdPoly self) in
  distance2 <- mapM (fun xy => pointDistance2 eigvals dist2 self polyDeriv (fst xy) (snd xy))
                    (combine xx yy) ;;
  ret (zipWith (fun d2 xy =>
                  (sqrt d2
                   * (if (np_polyval (ccdPoly self) (fst xy) <=? snd xy)%float then 1 else -1)
                   * unitScale self)%float)
               distance2 (combine xx yy)).

(** [ColorColorDistance.__init__]: the polynomial is stored as a [np.poly1d]. *)
Definition ColorColorDistance_init (p : list float) (unitScale : float)
    (xMin xMax : option float) (fitLineUpper fitLineLower : option (float * float))
    : ColorColorDistance :=
  mkColorColorDistance (poly1d p) unitScale xMin xMax fitLineUpper fitLineLower.

(** ** A reference numerical library

    One concrete choice for the library calls, so that the model runs on
    concrete arrays: least squares through the normal equations, a
    refinement that keeps its seed, the eigenvalue of a 1x1 companion matrix,
    and the squared distance of the distance evaluator. No theorem about the
    code depends on this choice. *)

Fixpoint fpow (x : float) (k : nat) : float :=
  match k with
  | O => 1%float
  | S k' => (x * fpow x k')%float
  end.

(** One row of the normal equations of a degree-[d] fit, row [i]: the sums
    of [x^(2d-i-j)] for [j = 0..d], then the sum of [x^(d-i) * y]. *)
Definition normalRow (x y : list float) (d i : nat) : list float :=
  map (fun j => np_sum (map (fun a => fpow a (2 * d - i - j)) x)) (seq 0 (S d))
  ++ [np_sum (zipWith (fun a b => (fpow a (d - i) * b)%float) x y)].

Definition dot (a b : list float) : float := np_sum (zipWith PrimFloat.mul a b).

(** Gaussian elimination on an [n x (n+1)] augmented matrix. *)
Fixpoint gaussSolve (n : nat) (m : list (list float)) : list float :=
  match n, m with
  | S n', (p :: r) :: rows =>
      let r' := map (fun v => (v / p)%float) r in
      let rows' :=
        map (fun row =>
               match row with
               | c :: t => zipWith (fun a b => (a - c * b)%float) t r'
               | [] => []
               end) rows in
      let sol := gaussSolve n' rows' in
      (last r' 0 - dot (removelast r') sol)%float :: sol
  | _, _ => []
  end.

Definition lstsqNormal (x y : list float) (deg : nat) : list float :=
  gaussSolve (S deg) (map (normalRow x y deg) (seq 0 (S deg))).

Definition odrKeepSeed (x y : list float) (order : nat) (initialGuess : list float)
    : list float := rev initialGuess.

Definition eigvalsUnit (row : list float) : result (list complex) :=
  match row with
  | [r] => if isfinite r then ret [(r, 0%float)] else raise LinAlgError
  | _ => raise LinAlgError
  end.

(** Modelled from the spec: [distanceSquaredToPoly] lives in the package's
    utils module, which is not part of the sources at hand; the squared
    Euclidean distance from the point [(x1, y1)] to the curve point
    [(x2, P(x2))]. *)
Definition distanceSquaredToPoly (x1 y1 x2 : float) (p : list float) : float :=
  ((x2 - x1) * (x2 - x1) + (np_polyval p x2 - y1) * (np_polyval p x2 - y1))%float.

Definition rootNever (f : float -> float) (start tol : float) : OptimizeResult :=
  mkOptimizeResult false start String.EmptyString.

Definition rootAt (x : float) (f : float -> float) (start tol : float) : OptimizeResult :=
  mkOptimizeResult true x String.EmptyString.


(** ** analysis.py: the labellers, and NumStarLabeller of colorAnalysis.py *)

(** [AllLabeller.__call__]: [np.zeros(len(catalog))]. *)
Definition AllLabeller (catalogLen : nat) : list Z := repeat 0%Z catalogLen.

(** [StarGalaxyLabeller.__call__]: [np.where(catalog[self._column] < 0.5, 0, 1)];
    the argument is the extendedness column. *)
Definition StarGalaxyLabeller (extendedness : list float) : list Z :=
  map (fun v => if (v <? 0.5)%float then 0%Z else 1%Z) extendedness.

(** [OverlapsStarGalaxyLabeller.__call__]: [np.where(first == second, first, 2)]
    on the classifications of the two extendedness columns. *)
Definition OverlapsStarGalaxyLabeller (ext1 ext2 : list float) : list Z :=
  zipWith (fun a b => if Z.eqb a b then a else 2%Z)
          (StarGalaxyLabeller ext1) (StarGalaxyLabeller ext2).

(** [NumStarLabeller.__call__]:
    [0 if nn >= self.numBands else 2 if nn == 0 else 1] over the column
    [numStarFlags]. *)
Definition NumStarLabeller (numBands : Z) (numStarFlags : list Z) : list Z :=
  map (fun nn => if Z.geb nn numBands then 0%Z
                 else if Z.eqb nn 0 then 2%Z else 1%Z) numStarFlags.

(** ** analysis.py: Data, Analysis.__init__ and Analysis.stats *)

(** The arrays a [Data] holds, each already cut down to its selection; the
    catalog, the plot colour and the plot switch are left out. *)
Record Data : Type := mkData {
  dQuantity : list float;
  dMag : list float;
  dSelection : list bool;
  dError : option (list float)
}.

(** [Data.__init__]. *)
Definition Data_init (quantity mag : list float) (selection : list bool)
    (error : option (list float)) : Data :=
  mkData (boolIndex quantity selection) (boolIndex mag selection) selection
         (match error with
          | Some e => Some (boolIndex e selection)
          | None => None
          end).

(** [~flag]. *)
Definition maskNot (m : list bool) : list bool := map negb m.

(** [labels == value]. *)
Definition labelIs (labels : list Z) (value : Z) : list bool :=
  map (fun l => Z.eqb l value) labels.

(** What [Analysis.__init__] stores for the statistics. *)
Record Analysis : Type := mkAnalysis {
  aQuantity : list float;
  aQuantityError : option (list float);
  aMag : list float;
  aGood : list bool;
  aData : list (String.string * Data)
}.

(** The mask [self.good] of [Analysis.__init__]: finite quantity and
    magnitude, finite error when there is an error function, none of the
    flags found in the schema ([None] stands for a flag that is not in the
    schema and is skipped), every good key. *)
Definition goodOf (quantity : list float) (quantityError : option (list float))
    (mag : list float) (flags : list (option (list bool)))
    (goodKeys : list (list bool)) : list bool :=
  let g0 := maskAnd (map isfinite quantity) (map isfinite mag) in
  let g1 := match quantityError with
            | Some e => maskAnd g0 (map isfinite e)
            | None => g0
            end in
  let g2 := fold_left (fun g ff => match ff with
                                   | Some col => maskAnd g (maskNot col)
                                   | None => g
                                   end) flags g1 in
  fold_left maskAnd goodKeys g2.

(** [Analysis.__init__]. [quantity] is [func(catalog)], [quantityError] is
    [errFunc(catalog)], [flux] the flux column, [log10] is [np.log10],
    [labels] is [labeller(catalog)] and [labelNames] the items of
    [labeller.labels]. *)
Definition Analysis_init (log10 : float -> float) (quantity : list float)
    (quantityError : option (list float)) (flux : list float)
    (flags : list (option (list bool))) (goodKeys : list (list bool))
    (labels : list Z) (labelNames : list (String.string * Z)) : Analysis :=
  let mag := map (fun f => (-2.5 * log10 f)%float) flux in
  let good := goodOf quantity quantityError mag flags goodKeys in
  mkAnalysis quantity quantityError mag good
    (map (fun nv => (fst nv,
                     Data_init quantity mag (maskAnd good (labelIs labels (snd nv)))
                               quantityError))
         labelNames).

(** One entry of the dictionary [Analysis.stats] returns: the [Stats], and
    the attribute [sysErr] set on it when there is an error function. *)
Record StatsEntry : Type := mkStatsEntry {
  seStats : Stats;
  sysErr : option float
}.

(** [d[key] = value] on a dictionary kept as an association list. *)
Fixpoint dictSet {V : Type} (d : list (String.string * V)) (key : String.string) (v : V)
    : list (String.string * V) :=
  match d with
  | [] => [(key, v)]
  | (k, w) :: d' => if String.eqb k key then (k, v) :: d' else (k, w) :: dictSet d' key v
  end.

(** [d[key]], [None] for a missing key. *)
Fixpoint dictGet {V : Type} (d : list (String.string * V)) (key : String.string) : option V :=
  match d with
  | [] => None
  | (k, w) :: d' => if String.eqb k key then Some w else dictGet d' key
  end.

(** The loop of [Analysis.stats] over the items of [self.data]. The variable
    [stats] is a dictionary, or [None] once the test [len(stats) == 0] has
    fired; storing into [None] is a [TypeError]. The prints are left out. *)
Fixpoint statsLoop
    (root : (float -> float) -> float -> float -> OptimizeResult)
    (configClip magThreshold : float) (hasError : bool) (forcedMean : option float)
    (items : list (String.string * Data))
    (stats : option (list (String.string * StatsEntry)))
    : result (option (list (String.string * StatsEntry))) :=
  match items with
  | [] => ret stats
  | (name, data) :: rest =>
      if Nat.eqb (length (dMag data)) 0 then
        statsLoop root configClip magThreshold hasError forcedMean rest stats
      else
        let good := map (fun m => (m <? magThreshold)%float) (dMag data) in
        let st := calculateStats configClip (dQuantity data) good forcedMean in
        match stats with
        | None => raise TypeError
        | Some d =>
            let se :=
              if hasError then
                match dError data with
                | Some e =>
                    Some (fst (calculateSysError root configClip (dQuantity data) e good
                                                 forcedMean 1.0e-3%float))
                | None => None
                end
              else None in
            let d' := dictSet d name (mkStatsEntry st se) in
            let stats' := if Nat.eqb (length d') 0 then None else Some d' in
            statsLoop root configClip magThreshold hasError forcedMean rest stats'
        end
  end.

(** [Analysis.stats(forcedMean)]. *)
Definition Analysis_stats
    (root : (float -> float) -> float -> float -> OptimizeResult)
    (configClip magThreshold : float) (self : Analysis) (forcedMean : option float)
    : result (option (list (String.string * StatsEntry))) :=
  statsLoop root configClip magThreshold
            (match aQuantityError self with Some _ => true | None => false end)
            forcedMean (aData self) (Some []).

(** The entry [Analysis.stats] stores for one data set. *)
Definition statsEntryOf
    (root : (float -> float) -> float -> float -> OptimizeResult)
    (configClip magThreshold : float) (hasError : bool) (forcedMean : option float)
    (data : Data) : StatsEntry :=
  let good := map (fun m => (m <? magThreshold)%float) (dMag data) in
  mkStatsEntry
    (calculateStats configClip (dQuantity data) good forcedMean)
    (if hasError then
       match dError data with
       | Some e =>
           Some (fst (calculateSysError root configClip (dQuantity data) e good
                                        forcedMean 1.0e-3%float))
       | None => None
       end
     else None).

(** ** analysis.py: Enforcer *)

(** The float attributes of a [Stats] a limit can name. *)
Inductive StatAttr : Type := AttrMean | AttrStdev | AttrMedian | AttrClip.

(** [getattr(stats, ss)]. *)
Definition getattrStats (s : Stats) (ss : StatAttr) : float :=
  match ss with
  | AttrMean => mean s
  | AttrStdev => stdev s
  | AttrMedian => median s
  | AttrClip => clip s
  end.

(** The two warnings, with the fields of their text. *)
Inductive warning : Type :=
| ExceedsMinimum (label : String.string) (ss : StatAttr) (value limit : float)
| ExceedsMaximum (label : String.string) (ss : StatAttr) (value limit : float).

(** How a call of the enforcer can end early. *)
Inductive enforcerExn : Type :=
| KeyError (label : String.string)
| AssertionError (text : warning).

Record Enforcer : Type := mkEnforcer {
  requireGreater : list (String.string * list (StatAttr * float));
  requireLess : list (String.string * list (StatAttr * float));
  doRaise : bool
}.

(** The inner loop [for ss in limits[label]] of one label; [greater] tells
    which of the two outer loops runs it. The result is the log so far and the
    exception that ended the loop, if one did. *)
Fixpoint enforceLabel (greater doRaise : bool) (stats : list (String.string * Stats))
    (label : String.string) (limits : list (StatAttr * float)) (log : list warning)
    : list warning * option enforcerExn :=
  match limits with
  | [] => (log, None)
  | (ss, limit) :: rest =>
      match dictGet stats label with
      | None => (log, Some (KeyError label))
      | Some s =>
          let value := getattrStats s ss in
          let bad := if greater then (value <=? limit)%float else (limit <=? value)%float in
          if bad then
            let text := if greater then ExceedsMinimum label ss value limit
                        else ExceedsMaximum label ss value limit in
            if doRaise then (log ++ [text], Some (AssertionError text))
            else enforceLabel greater doRaise stats label rest (log ++ [text])
          else enforceLabel greater doRaise stats label rest log
      end
  end.

(** One of the two outer loops [for label in limits]. *)
Fixpoint enforceAll (greater doRaise : bool) (stats : list (String.string * Stats))
    (limits : list (String.string * list (StatAttr * float))) (log : list warning)
    : list warning * option enforcerExn :=
  match limits with
  | [] => (log, None)
  | (label, ls) :: rest =>
      match enforceLabel greater doRaise stats label ls log with
      | (log', Some e) => (log', Some e)
      | (log', None) => enforceAll greater doRaise stats rest log'
      end
  end.

(** [Enforcer.__call__(stats, dataId, log, description)]: the warnings
    logged, and the exception raised if any. *)
Definition Enforcer_call (self : Enforcer) (stats : list (String.string * Stats))
    : list warning * option enforcerExn :=
  match enforceAll true (doRaise self) stats (requireGreater self) [] with
  | (log, Some e) => (log, Some e)
  | (log, None) => enforceAll false (doRaise self) stats (requireLess self) log
  end.

(** ** colorAnalysis.py: ColorValueInFitRange *)

Record ColorValueInFitRange : Type := mkColorValueInFitRange {
  xColor : list float;
  yColor : list float;
  fitLineSlope : option float;
  fitLineUpperIncpt : option float;
  fitLineLowerIncpt : option float;
  cvUnitScale : float
}.

(** [ColorValueInFitRange.__call__]; [column] is
    [principalColCats[self.column]]. Arithmetic on a [None] line parameter is
    a [TypeError]. *)
Definition ColorValueInFitRange_call (self : ColorValueInFitRange)
    (column : list float) : result (list float) :=
  match fitLineLowerIncpt self, fitLineSlope self, fitLineUpperIncpt self with
  | Some lower, Some slope, Some upper =>
      let good1 := zipWith (fun x y => gtb y (lower + slope * x)%float)
                           (xColor self) (yColor self) in
      let good2 := zipWith (fun x y => (y <? upper + slope * x)%float)
                           (xColor self) (yColor self) in
      let good := maskAnd good1 good2 in
      ret (zipWith (fun g v => ((if g : bool then v else nan) * cvUnitScale self)%float)
                   good column)
  | _, _, _ => raise TypeError
  end.

(** ** plotUtils.py and analysis.py: labels read off a file name *)

Module PathLabel.

Import String.
Local Open Scope string_scope.

(** [s.find(sub, start)] for [start >= 0]: the lowest index at or after
    [start] where [sub] occurs, -1 when there is none. *)
Definition find (s sub : string) (start : nat) : Z :=
  match index start sub s with
  | Some m => Z.of_nat m
  | None => (-1)%Z
  end.

(** [s[i:j]], with Python's reading of negative and out-of-range bounds. *)
Definition slice (s : string) (i j : Z) : string :=
  let len := Z.of_nat (length s) in
  let norm := fun k : Z => if (k <? 0)%Z then Z.max 0 (k + len) else Z.min k len in
  let i' := norm i in
  let j' := norm j in
  substring (Z.to_nat i') (Z.to_nat (j' - i')) s.

(** [filterStrFromFilename(filename)]. *)
Definition filterStrFromFilename (filename : string) : string :=
  let f1 := (find filename "plots/" 0 + Z.of_nat (length "plots/"))%Z in
  let f2 := find filename "/" (Z.to_nat f1) in
  slice filename f1 f2.

(** The text between a marker and the next slash:
    [filename[i1:i2]] with [i1 = filename.find(marker) + len(marker)] and
    [i2 = filename.find("/", i1)]. *)
Definition fieldAfter (filename marker : string) : string :=
  let i1 := (find filename marker 0 + Z.of_nat (length marker))%Z in
  let i2 := find filename "/" (Z.to_nat i1) in
  slice filename i1 i2.

(** [labelVisit] of plotUtils.py: the text it draws, [None] when it draws
    nothing. Appending to the [None] label is a [TypeError]. *)
Definition labelVisit (filename : string) : result (option string) :=
  let labelStr1 :=
    if (0 <=? find filename "tract-" 0)%Z
    then Some ("tract: " ++ fieldAfter filename "tract-")
    else None in
  if (0 <=? find filename "visit-" 0)%Z then
    match labelStr1 with
    | None => raise TypeError
    | Some l => ret (Some (l ++ " visit: " ++ fieldAfter filename "visit-"))
    end
  else ret labelStr1.

(** [Analysis.labelVisit] of analysis.py: the text it draws. *)
Definition Analysis_labelVisit (filename : string) : option string :=
  let labelStr1 := if (0 <=? find filename "visit-" 0)%Z then Some "visit" else None in
  let labelStr2 := if (0 <=? find filename "tract-" 0)%Z then Some "tract" else labelStr1 in
  match labelStr2 with
  | None => None
  | Some l => Some (l ++ ": " ++ fieldAfter filename (l ++ "-"))
  end.

End PathLabel.

(** The class attributes [labels] of the labellers, in the order of their
    items. *)
Module Labels.

Import String.
Local Open Scope string_scope.

Definition star : string := "star".
Definition galaxy : string := "galaxy".

Definition AllLabeller_labels : list (string * Z) := [("all", 0%Z)].
Definition StarGalaxyLabeller_labels : list (string * Z) := [(star, 0%Z); (galaxy, 1%Z)].
Definition OverlapsStarGalaxyLabeller_labels : list (string * Z) :=
  [(star, 0%Z); (galaxy, 1%Z); ("split", 2%Z)].
Definition NumStarLabeller_labels : list (string * Z) :=
  [(star, 0%Z); ("maybe", 1%Z); ("notStar", 2%Z)].

End Labels.

(** ** colorAnalysis.py: ColorValueInPerpRange *)

Module PerpRange.

(** The functor's attributes; the two limit dictionaries are kept as the
    lists of their items, in the order [items()] yields them. *)
Record ColorValueInPerpRange : Type := mkColorValueInPerpRange {
  column : String.string;
  requireGreater : list (String.string * float);
  requireLess : list (String.string * float);
  unitScale : float
}.

(** [principalColCats]: the columns of the catalog by name. *)
Definition catalog : Type := list (String.string * list float).

(** Subscripting the catalog with the name of a column it does not have. *)
Inductive lookupError : Type :=
| KeyError (col : String.string).

(** One of the loops [for col, value in limits.items(): good &= cat[col] cmp value]. *)
Fixpoint limitLoop (cmp : float -> float -> bool) (principalColCats : catalog)
    (limits : list (String.string * float)) (good : list bool)
    : lookupError + list bool :=
  match limits with
  | [] => inr good
  | (col, value) :: rest =>
      match dictGet principalColCats col with
      | None => inl (KeyError col)
      | Some vals =>
          limitLoop cmp principalColCats rest
                    (maskAnd good (map (fun v => cmp v value) vals))
      end
  end.

(** [ColorValueInPerpRange.__call__(principalColCats)]; [len] is
    [len(principalColCats)], the number of rows. *)
Definition ColorValueInPerpRange_call (self : ColorValueInPerpRange)
    (principalColCats : catalog) (len : nat) : lookupError + list float :=
  match limitLoop gtb principalColCats (requireGreater self) (repeat true len) with
  | inl e => inl e
  | inr good1 =>
      match limitLoop PrimFloat.ltb principalColCats (requireLess self) good1 with
      | inl e => inl e
      | inr good =>
          match dictGet principalColCats (column self) with
          | None => inl (KeyError (column self))
          | Some vals =>
              inr (zipWith (fun g v => ((if g : bool then v else nan) * unitScale self)%float)
                           good vals)
          end
      end
  end.

(** Row [i] passes every limit of one dictionary. *)
Definition passes (cmp : float -> float -> bool) (principalColCats : catalog)
    (limits : list (String.string * float)) (i : nat) : bool :=
  forallb (fun cv => match dictGet principalColCats (fst cv) with
                     | Some vals => cmp (nth i vals nan) (snd cv)
                     | None => false
                     end) limits.

(** The names the call looks up, in the order it does. *)
Definition columnsRead (self : ColorValueInPerpRange) : list String.string :=
  map fst (requireGreater self) ++ map fst (requireLess self) ++ [column self].

End PerpRange.
(** * Proofs *)

(** ** Facts about binary64 *)

Section FloatFacts.

Local Open Scope float_scope.

Lemma Prim2SF_nan : Prim2SF nan = S754_nan.
Proof. reflexivity. Qed.

Lemma SFcompare_refl (f : spec_float) :
  f <> S754_nan -> SFcompare f f = Some Eq.
Proof.
  destruct f as [s | s | | s m e]; simpl; intros Hn.
  - reflexivity.
  - destruct s; reflexivity.
  - contradiction.
  - destruct s; rewrite Z.compare_refl, Pos.compare_cont_refl; reflexivity.
Qed.

(** A float that is not equal to itself is the NaN. *)
Lemma is_nan_eq (x : float) : is_nan x = true -> x = nan.
Proof.
  unfold is_nan. rewrite eqb_spec. intros H.
  apply Prim2SF_inj. rewrite Prim2SF_nan.
  destruct (Prim2SF x) as [s | s | | s m e] eqn:E; try reflexivity;
    unfold SFeqb in H; rewrite SFcompare_refl in H by discriminate;
    discriminate.
Qed.




Lemma mul_nan_l (a : float) : nan * a = nan.
Proof.
  apply Prim2SF_inj. rewrite mul_spec, Prim2SF_nan. reflexivity.
Qed.




(** A threshold that compares equal to zero clips like zero. *)
Lemma ltb_zero_l (c a : float) : (c =? 0) = true -> (c <? a) = (0 <? a).
Proof.
  rewrite eqb_spec, !ltb_spec.
  replace (Prim2SF 0) with (S754_zero false) by reflexivity.
  destruct (Prim2SF c) as [s | s | | s m e]; simpl.
  - intros _. destruct (Prim2SF a); reflexivity.
  - destruct s; discriminate.
  - discriminate.
  - destruct s; discriminate.
Qed.

End FloatFacts.

(** ** Facts about arrays and masks *)

Section ArrayFacts.

Context {A B C : Type}.

Lemma zipWith_length (f : A -> B -> C) (a : list A) (b : list B) :
  length (zipWith f a b) = Nat.min (length a) (length b).
Proof.
  revert b; induction a as [| x a IH]; intros [| y b]; simpl; auto.
Qed.

Lemma zipWith_nth (f : A -> B -> C) (a : list A) (b : list B) (i : nat)
      (da : A) (db : B) (dc : C) :
  i < length a -> i < length b ->
  nth i (zipWith f a b) dc = f (nth i a da) (nth i b db).
Proof.
  revert b i; induction a as [| x a IH]; intros [| y b] [| i]; simpl;
    intros Ha Hb; try lia; auto.
  apply IH; lia.
Qed.


End ArrayFacts.

Lemma maskAnd_nth (m1 m2 : list bool) (i : nat) :
  nth i (maskAnd m1 m2) false = nth i m1 false && nth i m2 false.
Proof.
  unfold maskAnd. revert m2 i.
  induction m1 as [| a m1 IH]; intros [| b m2] [| i]; simpl;
    rewrite ?andb_false_r; auto.
Qed.

Lemma maskAnd_subset_l (m1 m2 : list bool) : maskSubset (maskAnd m1 m2) m1.
Proof.
  intros i H. rewrite maskAnd_nth in H. apply andb_true_iff in H. tauto.
Qed.

Lemma maskAnd_subset_r (m1 m2 : list bool) : maskSubset (maskAnd m1 m2) m2.
Proof.
  intros i H. rewrite maskAnd_nth in H. apply andb_true_iff in H. tauto.
Qed.

Lemma andAll_subset (sels : list (list bool)) (m : list bool) :
  maskSubset (andAll m sels) m.
Proof.
  unfold andAll. revert m.
  induction sels as [| s sels IH]; intros m i H; simpl in *; auto.
  apply IH in H. exact (maskAnd_subset_l _ _ _ H).
Qed.





(** ** Analysis.calculateStats *)

Lemma calculateStats_nonempty (configClip : float) (quantity : list float)
      (selection : list bool) (fm : option float) :
  0 < maskSum selection ->
  calculateStats configClip quantity selection fm =
  let sel := boolIndex quantity selection in
  let median := percentile sel 50 in
  let clip := (configClip * 0.74 * (percentile sel 75 - percentile sel 25))%float in
  let good := goodMask quantity selection median clip in
  let actualMean := np_mean (boolIndex quantity good) in
  mkStats (UsedMask good) (maskSum good) (maskSum selection) actualMean
          (rmsAbout (boolIndex quantity good) (activeMean actualMean fm))
          fm median clip.
Proof.
  intros Hpos. unfold calculateStats.
  destruct (Nat.eqb_spec (maskSum selection) 0) as [E | _]; [lia | reflexivity].
Qed.


Lemma goodMask_zero_clip (quantity : list float) (selection : list bool)
      (med c : float) :
  (c =? 0)%float = true ->
  goodMask quantity selection med c =
  maskAnd selection (map (fun q => negb (0 <? abs (q - med))%float) quantity).
Proof.
  intros Hc. unfold goodMask. f_equal. apply map_ext. intros q.
  unfold gtb. rewrite (@ltb_zero_l c _ Hc). reflexivity.
Qed.

(** C9: with no selected point the result has [num = 0], [total = 0] and NaN
    in [mean], [stdev], [median] and [clip]; the function returns it at once,
    nothing on that path can raise. *)
Theorem calculateStats_no_selection (configClip : float) (quantity : list float)
        (selection : list bool) (fm : option float) :
  maskSum selection = 0 ->
  let s := calculateStats configClip quantity selection fm in
  num s = 0 /\ total s = 0 /\
  is_nan (mean s) = true /\ is_nan (stdev s) = true /\
  is_nan (median s) = true /\ is_nan (clip s) = true /\
  s = mkStats (UsedScalar 0) 0 0 nan nan (Some nan) nan nan.
Proof.
  intros H0 s. subst s. unfold calculateStats. rewrite H0. simpl.
  repeat split; reflexivity.
Qed.

Lemma calculateStats_no_selection_witness :
  maskSum [false; false; false] = 0 /\
  let s := calculateStats 4 [1; 2; 3]%float [false; false; false] None in
  num s = 0 /\ total s = 0 /\
  is_nan (mean s) = true /\ is_nan (stdev s) = true /\
  is_nan (median s) = true /\ is_nan (clip s) = true /\
  s = mkStats (UsedScalar 0) 0 0 nan nan (Some nan) nan nan.
Proof.
  split.
  - reflexivity.
  - apply (@calculateStats_no_selection 4 [1; 2; 3]%float [false; false; false] None).
    reflexivity.
Defined.

(** C1, as stated, fails: with [forcedMean = 0] on the values 1, 2, 3 the
    reported [mean] is 2, the arithmetic mean, and not the forced 0, which is
    kept in the field [forcedMean]. *)
Lemma calculateStats_forcedMean_counterexample :
  let s := calculateStats 4 [1; 2; 3]%float [true; true; true] (Some 0%float) in
  0 < total s /\ mean s = 2%float /\ (mean s =? 0)%float = false /\
  forcedMean s = Some 0%float.
Proof.
  vm_compute. repeat split; auto.
Qed.

(** C1, amended: with a selected point, the reported [mean] is the arithmetic
    mean of the used values whether or not [forcedMean] is given; a given
    [forcedMean] is reported in its own field, and [stdev] is the RMS deviation
    of the used values about the active mean ([forcedMean] when given, the
    arithmetic mean otherwise). *)
Theorem calculateStats_mean_stdev (configClip : float) (quantity : list float)
        (selection : list bool) (fm : option float) :
  0 < maskSum selection ->
  let s := calculateStats configClip quantity selection fm in
  let good := goodMask quantity selection (median s) (clip s) in
  let used := boolIndex quantity good in
  dataUsed s = UsedMask good /\
  mean s = np_mean used /\
  forcedMean s = fm /\
  stdev s = rmsAbout used (match fm with Some v => v | None => np_mean used end).
Proof.
  intros Hpos s. subst s. rewrite (calculateStats_nonempty _ _ _ _ Hpos).
  cbv zeta. simpl. unfold activeMean. repeat split; reflexivity.
Qed.

Lemma calculateStats_mean_stdev_witness :
  0 < maskSum [true; true; true] /\
  let s := calculateStats 4 [1; 2; 3]%float [true; true; true] (Some 0%float) in
  let good := goodMask [1; 2; 3]%float [true; true; true] (median s) (clip s) in
  let used := boolIndex [1; 2; 3]%float good in
  dataUsed s = UsedMask good /\
  mean s = np_mean used /\
  forcedMean s = Some 0%float /\
  stdev s = rmsAbout used 0%float.
Proof.
  split.
  - vm_compute. lia.
  - apply (@calculateStats_mean_stdev 4 [1; 2; 3]%float [true; true; true] (Some 0%float)).
    vm_compute. lia.
Defined.

(** C2, as stated, fails. On 0, 1, 1, 1, 5 the quartiles coincide, the
    threshold is 0, and the used set is the three entries equal to the median
    1, not the five selected ones: the mean is 1, not 1.6. On two values two
    units in the last place apart the quartiles and the median round to the
    value in between, and the used set is empty. *)
Lemma calculateStats_zero_spread_counterexample :
  (let s := calculateStats 4 [0; 1; 1; 1; 5]%float [true; true; true; true; true] None in
   (clip s =? 0)%float = true /\ total s = 5 /\ num s = 3 /\
   dataUsed s = UsedMask [false; true; true; true; false] /\
   mean s = 1%float /\
   np_mean (boolIndex [0; 1; 1; 1; 5]%float [true; true; true; true; true]) = 1.6%float)
  /\
  (let s := calculateStats 4 [0x1.0000000000001p+0; 0x1.0000000000003p+0]%float
                           [true; true] None in
   (clip s =? 0)%float = true /\ total s = 2 /\ num s = 0 /\
   dataUsed s = UsedMask [false; false] /\ is_nan (mean s) = true).
Proof.
  vm_compute. repeat split; auto.
Qed.

(** C2, amended: a zero threshold has no branch of its own. With a selected
    point and [clip] equal to 0 the used set is the selected entries whose
    deviation from the median is not greater than 0, a subset of the selection
    that can be proper or empty, and [num], [mean] and [stdev] are computed over
    that used set. *)
Theorem calculateStats_zero_spread (configClip : float) (quantity : list float)
        (selection : list bool) (fm : option float) :
  0 < maskSum selection ->
  (clip (calculateStats configClip quantity selection fm) =? 0)%float = true ->
  let s := calculateStats configClip quantity selection fm in
  let used :=
    maskAnd selection (map (fun q => negb (0 <? abs (q - median s))%float) quantity) in
  dataUsed s = UsedMask used /\
  maskSubset used selection /\
  num s = maskSum used /\
  mean s = np_mean (boolIndex quantity used) /\
  stdev s = rmsAbout (boolIndex quantity used) (activeMean (mean s) fm).
Proof.
  intros Hpos. rewrite (calculateStats_nonempty _ _ _ _ Hpos).
  cbv zeta. simpl. intros Hclip.
  rewrite (goodMask_zero_clip _ _ _ Hclip).
  repeat split; try reflexivity. apply maskAnd_subset_l.
Qed.

Lemma calculateStats_zero_spread_witness :
  let quantity := [0; 1; 1; 1; 5]%float in
  let selection := [true; true; true; true; true] in
  0 < maskSum selection /\
  (clip (calculateStats 4 quantity selection None) =? 0)%float = true /\
  let s := calculateStats 4 quantity selection None in
  let used :=
    maskAnd selection (map (fun q => negb (0 <? abs (q - median s))%float) quantity) in
  dataUsed s = UsedMask used /\
  maskSubset used selection /\
  num s = maskSum used /\
  mean s = np_mean (boolIndex quantity used) /\
  stdev s = rmsAbout (boolIndex quantity used) (activeMean (mean s) None).
Proof.
  intros quantity selection.
  split; [vm_compute; lia |].
  split; [vm_compute; reflexivity |].
  apply (@calculateStats_zero_spread 4 quantity selection None).
  - vm_compute; lia.
  - vm_compute; reflexivity.
Defined.


(** ** Analysis.calculateSysError *)

(** C8: the method is a total function of the solver's outcome. When the
    solve does not succeed it prints the warning with the solver's message and
    returns NaN; when it succeeds it prints no warning and returns the square
    root of the root [x[0]] found, a quantity in the units of the values. *)
Theorem calculateSysError_outcome
        (root : (float -> float) -> float -> float -> OptimizeResult)
        (configClip : float) (quantity error : list float) (selection : list bool)
        (fm : option float) (tol : float) :
  let r := root (sysErrFunction configClip quantity error selection fm) 0%float tol in
  let out := calculateSysError root configClip quantity error selection fm tol in
  (success r = false ->
   fst out = nan /\ In (PrintWarning (message r)) (snd out))
  /\
  (success r = true ->
   fst out = sqrt (x0 r) /\ forall msg, ~ In (PrintWarning msg) (snd out)).
Proof.
  intros r out. subst out. unfold calculateSysError. fold r.
  destruct (success r) eqn:Hs; simpl; split; intros H; try discriminate.
  - split; [reflexivity |]. intros msg [E | E]; [discriminate | contradiction].
  - split; [reflexivity |]. left; reflexivity.
Qed.

(** ** The initial fit of colorColorPolyFitPlot *)

(** The state the first loop starts from. *)
Lemma initialFit_standard (lstsq : list float -> list float -> nat -> list float)
      (xx yy : list float) (order iterations : nat) (rej : float) (region : FitRegion) :
  initialFit lstsq xx yy order iterations rej region false =
  (st <- forEach (polyfitRound lstsq xx yy order rej region) (seq 0 iterations)
                 (mkKeepState (onesLike xx) (andAll (onesLike xx) (regionMasks region xx yy))) ;;
   if Nat.eqb iterations 0 then raise UnboundLocalError
   else
     let keep1 := maskAnd (keep st) (select st) in
     if Nat.ltb (maskSum keep1) order then raise (RuntimeError (maskSum keep1) order)
     else
       poly <- np_polyfit lstsq (boolIndex xx keep1) (boolIndex yy keep1) order ;;
       ret (poly, keep1)).
Proof. reflexivity. Qed.

Lemma np_polyfit_exn (lstsq : list float -> list float -> nat -> list float)
      (x y : list float) (deg : nat) (e : exn) :
  np_polyfit lstsq x y deg = inl e -> e = TypeError.
Proof.
  unfold np_polyfit. destruct x; simpl; intros H; inversion H; reflexivity.
Qed.

Lemma np_percentile_returns (a : list float) (q : nat) (v : float) :
  np_percentile a q = inr v -> a <> [] /\ v = percentile a q.
Proof.
  unfold np_percentile. destruct a; intros H; [discriminate |].
  inversion H; subst. split; [discriminate | reflexivity].
Qed.

Lemma clipOf_exn (rej : float) (dy : list float) (keep : list bool) (e : exn) :
  clipOf rej dy keep = inl e -> boolIndex dy keep = [] /\ e = IndexError.
Proof.
  unfold clipOf, np_percentile, bind.
  destruct (boolIndex dy keep); intros H; [| discriminate].
  inversion H; subst. split; reflexivity.
Qed.

Lemma clipOf_returns (rej : float) (dy : list float) (keep : list bool) (clip : float) :
  clipOf rej dy keep = inr clip ->
  boolIndex dy keep <> [] /\
  clip = (rej * 0.74 * (percentile (boolIndex dy keep) 75
                        - percentile (boolIndex dy keep) 25))%float.
Proof.
  unfold clipOf, np_percentile, bind.
  destruct (boolIndex dy keep); intros H; [discriminate |].
  inversion H; subst. split; [discriminate | reflexivity].
Qed.

Lemma clipMask_nth (dy : list float) (clip : float) (i : nat) :
  i < length dy ->
  nth i (clipMask dy clip) false = negb (gtb (abs (nth i dy 0%float)) clip).
Proof.
  intros Hi. unfold clipMask.
  rewrite (nth_indep _ false (negb (gtb (abs 0%float) clip)))
    by (rewrite length_map; exact Hi).
  exact (map_nth (fun d => negb (gtb (abs d) clip)) dy 0%float i).
Qed.

(** What a round of the first loop does when it returns. *)
Lemma polyfitRound_returns (lstsq : list float -> list float -> nat -> list float)
      (xx yy : list float) (order : nat) (rej : float) (region : FitRegion)
      (ii : nat) (st st' : KeepState) :
  polyfitRound lstsq xx yy order rej region ii st = inr st' ->
  let fitted := maskAnd (keep st) (select st) in
  exists p clip,
    np_polyfit lstsq (boolIndex xx fitted) (boolIndex yy fitted) order = inr p /\
    clipOf rej (residuals p xx yy) fitted = inr clip /\
    keep st' = clipMask (residuals p xx yy) clip /\
    select st' = (if Nat.eqb ii 0 then andAll (select st) (paddedMasks region xx yy)
                  else select st).
Proof.
  intros H fitted. unfold polyfitRound in H. fold fitted in H. unfold bind in H.
  destruct (np_polyfit lstsq (boolIndex xx fitted) (boolIndex yy fitted) order)
    as [e | p] eqn:E; [discriminate |].
  destruct (clipOf rej (residuals p xx yy) fitted) as [e | clip] eqn:Ec; [discriminate |].
  inversion H; subst st'; clear H. simpl.
  exists p, clip. split; [reflexivity |]. split; [exact Ec |]. split; reflexivity.
Qed.

Lemma polyfitRound_exn (lstsq : list float -> list float -> nat -> list float)
      (xx yy : list float) (order : nat) (rej : float) (region : FitRegion)
      (ii : nat) (st : KeepState) (e : exn) :
  polyfitRound lstsq xx yy order rej region ii st = inl e ->
  e = TypeError \/ e = IndexError.
Proof.
  unfold polyfitRound, bind.
  destruct (np_polyfit lstsq _ _ order) as [e' | p] eqn:E; intros H.
  - inversion H; subst. left. exact (np_polyfit_exn _ _ _ _ E).
  - destruct (clipOf rej _ _) as [e' | clip] eqn:Ec; [| discriminate].
    inversion H; subst. right. exact (proj2 (clipOf_exn _ _ _ Ec)).
Qed.

(** C3, as stated, fails. Ten points on the line y = 0 and one far outlier:
    the first round's tilted line rejects the point at x = 0 together with the
    outlier; the second round fits y = 0 through the kept points, and the
    point at x = 0, once rejected, is back in the keep mask and in the final
    fit. *)
Lemma polyfitRound_reentry_counterexample :
  let xx := [0; 4; 4.25; 4.5; 4.75; 5; 5.25; 5.5; 5.75; 6; 10]%float in
  let yy := [0; 0; 0; 0; 0; 0; 0; 0; 0; 0; 110]%float in
  let region := mkFitRegion None None None None in
  let st0 := mkKeepState (onesLike xx) (andAll (onesLike xx) (regionMasks region xx yy)) in
  exists st1 st2 fit,
    polyfitRound lstsqNormal xx yy 1 3 region 0 st0 = inr st1 /\
    polyfitRound lstsqNormal xx yy 1 3 region 1 st1 = inr st2 /\
    nth 0 (keep st1) false = false /\
    nth 0 (keep st2) false = true /\
    ~ maskSubset (keep st2) (keep st1) /\
    colorColorPolyFitPlot lstsqNormal odrKeepSeed xx yy 1 2 3 region false = inr fit /\
    nth 0 (keepInitial fit) false = true.
Proof.
  intros xx yy region st0.
  eexists. eexists. eexists.
  split; [vm_compute; reflexivity |].
  split; [vm_compute; reflexivity |].
  split; [reflexivity |].
  split; [reflexivity |].
  split.
  - intros H. specialize (H 0 eq_refl). discriminate.
  - split; [vm_compute; reflexivity | reflexivity].
Qed.

(** C3, amended: a round fits the polynomial over [keep & select], the
    region mask and-ed into the current [keep], and then assigns to [keep] the
    mask of the points, among all of them, whose residual is not above that
    round's threshold, the quartiles being those of the fitted points. The
    new [keep] is not intersected with the previous one: whether a point is in
    it depends on its residual and the threshold alone, so a point rejected
    earlier is back as soon as its residual is within the threshold. *)
Theorem polyfitRound_keep_reassigned
        (lstsq : list float -> list float -> nat -> list float)
        (xx yy : list float) (order : nat) (rej : float) (region : FitRegion)
        (ii : nat) (st st' : KeepState) :
  polyfitRound lstsq xx yy order rej region ii st = inr st' ->
  let fitted := maskAnd (keep st) (select st) in
  exists p q1 q3,
    np_polyfit lstsq (boolIndex xx fitted) (boolIndex yy fitted) order = inr p /\
    let dy := residuals p xx yy in
    let clip := (rej * 0.74 * (q3 - q1))%float in
    np_percentile (boolIndex dy fitted) 25 = inr q1 /\
    np_percentile (boolIndex dy fitted) 75 = inr q3 /\
    keep st' = clipMask dy clip /\
    (forall i, i < length dy ->
       nth i (keep st') false = negb (gtb (abs (nth i dy 0%float)) clip)) /\
    (forall i, i < length dy ->
       nth i (keep st) false = false ->
       gtb (abs (nth i dy 0%float)) clip = false ->
       nth i (keep st') false = true).
Proof.
  intros H fitted.
  destruct (polyfitRound_returns _ _ _ _ _ _ _ _ H) as (p & clip & Hp & Hc & Hk & _).
  fold fitted in Hp, Hc.
  unfold clipOf, bind in Hc.
  destruct (np_percentile (boolIndex (residuals p xx yy) fitted) 25) as [e | q1] eqn:E1;
    [discriminate |].
  destruct (np_percentile (boolIndex (residuals p xx yy) fitted) 75) as [e | q3] eqn:E3;
    [discriminate |].
  assert (Hclip : clip = (rej * 0.74 * (q3 - q1))%float) by (unfold ret in Hc; congruence).
  subst clip.
  exists p, q1, q3. split; [exact Hp |]. cbv zeta.
  split; [exact E1 |]. split; [exact E3 |]. split; [exact Hk |].
  split.
  - intros i Hi. rewrite Hk. apply clipMask_nth. exact Hi.
  - intros i Hi _ Hres. rewrite Hk, (clipMask_nth _ _ Hi), Hres. reflexivity.
Qed.

Lemma polyfitRound_keep_reassigned_witness :
  let xx := [0; 4; 4.25; 4.5; 4.75; 5; 5.25; 5.5; 5.75; 6; 10]%float in
  let yy := [0; 0; 0; 0; 0; 0; 0; 0; 0; 0; 110]%float in
  let region := mkFitRegion None None None None in
  let st := mkKeepState [false; true; true; true; true; true; true; true; true; true; false]
                        (onesLike xx) in
  let st' := mkKeepState [true; true; true; true; true; true; true; true; true; true; false]
                         (onesLike xx) in
  polyfitRound lstsqNormal xx yy 1 3 region 1 st = inr st' /\
  nth 0 (keep st) false = false /\
  nth 0 (keep st') false = true /\
  exists p q1 q3,
    np_polyfit lstsqNormal (boolIndex xx (maskAnd (keep st) (select st)))
               (boolIndex yy (maskAnd (keep st) (select st))) 1 = inr p /\
    np_percentile (boolIndex (residuals p xx yy) (maskAnd (keep st) (select st))) 25
    = inr q1 /\
    np_percentile (boolIndex (residuals p xx yy) (maskAnd (keep st) (select st))) 75
    = inr q3 /\
    keep st' = clipMask (residuals p xx yy) (3 * 0.74 * (q3 - q1))%float.
Proof.
  intros xx yy region st st'.
  assert (H : polyfitRound lstsqNormal xx yy 1 3 region 1 st = inr st')
    by (vm_compute; reflexivity).
  split; [exact H |]. split; [reflexivity |]. split; [reflexivity |].
  destruct (@polyfitRound_keep_reassigned lstsqNormal xx yy 1 3 region 1 st st' H)
    as (p & q1 & q3 & Hp & H1 & H3 & Hk & _).
  exists p, q1, q3. auto.
Defined.



(** The error branch is reached: three points on a line and two more above
    and below the middle one leave three equal residuals between the
    quartiles, a zero threshold, and no point in the keep mask. *)
Example initialFit_raises :
  initialFit lstsqNormal [0; 1; 2; 1; 1]%float [0; 0; 0; -10; 20]%float 1 1 3
             (mkFitRegion None None None None) false
  = inl (RuntimeError 0 1).
Proof. vm_compute. reflexivity. Qed.

(** When an earlier round leaves no point, the final check is not reached:
    the next round's [np.polyfit] raises on the empty arrays. Ten points on
    y = x and the outlier (5, 100): the first line is lifted by the outlier,
    every residual exceeds the threshold, and the second round has nothing to
    fit. *)
Example initialFit_emptied_in_loop :
  let xx := [0; 1; 2; 3; 4; 5; 6; 7; 8; 9; 5]%float in
  let yy := [0; 1; 2; 3; 4; 5; 6; 7; 8; 9; 100]%float in
  let region := mkFitRegion None None None None in
  forEach (polyfitRound lstsqNormal xx yy 1 3 region) (seq 0 1)
          (mkKeepState (onesLike xx) (onesLike xx))
  = inr (mkKeepState (map (fun _ => false) xx) (onesLike xx)) /\
  initialFit lstsqNormal xx yy 1 3 3 region false = inl TypeError.
Proof. vm_compute. split; reflexivity. Qed.

(** A noiseless parabola is recovered, with every point kept. *)
Example colorColorPolyFitPlot_parabola :
  colorColorPolyFitPlot lstsqNormal odrKeepSeed
                        [0; 1; 2; 3; 4]%float [0; 1; 4; 9; 16]%float 2 3 3
                        (mkFitRegion None None None None) false
  = inr (mkLocusFit [1; 0; 0]%float [true; true; true; true; true]
                    (mkOdrState [1; 0; 0]%float [true; true; true; true; true])).
Proof. vm_compute. reflexivity. Qed.

(** Over the rounds the region mask only shrinks. *)
Lemma forEach_polyfitRound_select
      (lstsq : list float -> list float -> nat -> list float)
      (xx yy : list float) (order : nat) (rej : float) (region : FitRegion)
      (iis : list nat) (st st' : KeepState) :
  forEach (polyfitRound lstsq xx yy order rej region) iis st = inr st' ->
  maskSubset (select st') (select st).
Proof.
  revert st; induction iis as [| ii iis IH]; simpl; intros st H.
  - inversion H; subst. intros i Hi; exact Hi.
  - unfold bind in H.
    destruct (polyfitRound lstsq xx yy order rej region ii st) as [e | st1] eqn:E;
      [discriminate |].
    specialize (IH _ H).
    assert (Hstep : maskSubset (select st1) (select st)).
    { destruct (polyfitRound_returns _ _ _ _ _ _ _ _ E) as (p & clip & _ & _ & _ & Hs).
      rewrite Hs.
      destruct (Nat.eqb ii 0).
      - exact (@andAll_subset (paddedMasks region xx yy) (select st)).
      - intros i Hi; exact Hi. }
    intros i Hi. apply Hstep, IH, Hi.
Qed.

(** The mask the initial fit returns lies within the region of the first
    iteration: the padding never admits a point the first masks excluded. *)
Lemma initialFit_keep_in_region
      (lstsq : list float -> list float -> nat -> list float)
      (xx yy : list float) (order iterations : nat) (rej : float)
      (region : FitRegion) (p : list float) (k : list bool) :
  initialFit lstsq xx yy order iterations rej region false = inr (p, k) ->
  maskSubset k (andAll (onesLike xx) (regionMasks region xx yy)).
Proof.
  rewrite initialFit_standard. unfold bind.
  destruct (forEach _ _ _) as [e | st] eqn:Eloop; [discriminate |].
  destruct (Nat.eqb iterations 0); [discriminate |].
  destruct (Nat.ltb _ order); [discriminate |].
  destruct (np_polyfit lstsq _ _ order) as [e | q]; [discriminate |].
  intros H. inversion H; subst. intros i Hi.
  apply maskAnd_subset_r in Hi.
  exact (forEach_polyfitRound_select _ _ _ _ _ _ _ _ Eloop i Hi).
Qed.

(** ** The refinement rounds *)

(** Each refinement round applies the same check to its own mask. *)
Lemma odrRound_check (odr : list float -> list float -> nat -> list float -> list float)
      (xx yy : list float) (order : nat) (rej : float) (region : FitRegion)
      (ii : nat) (st : OdrState) (clip : float) :
  let dy := residuals (orthRegCoeffs st) xx yy in
  clipOf rej dy (keepOdr st) = inr clip ->
  let clipped :=
    maskAnd (maskAnd (clipMask dy clip) (map isfinite xx)) (map isfinite yy) in
  let kept := if Nat.eqb ii 0 then andAll clipped (paddedMasks region xx yy) else clipped in
  (maskSum kept < order ->
   odrRound odr xx yy order rej region ii st = inl (RuntimeError (maskSum kept) order))
  /\
  (order <= maskSum kept ->
   odrRound odr xx yy order rej region ii st =
   inr (mkOdrState (odr (boolIndex xx kept) (boolIndex yy kept) order
                        (rev (orthRegCoeffs st))) kept)).
Proof.
  intros dy Hc clipped kept. unfold odrRound.
  fold dy. rewrite Hc. unfold bind. fold clipped. fold kept.
  destruct (Nat.ltb_spec (maskSum kept) order) as [Hlt | Hge]; split; intros H;
    try lia; reflexivity.
Qed.

(** With no point left in [keepOdr], the quartiles of the round cannot be
    taken. *)
Lemma odrRound_IndexError
      (odr : list float -> list float -> nat -> list float -> list float)
      (xx yy : list float) (order : nat) (rej : float) (region : FitRegion)
      (ii : nat) (st : OdrState) :
  boolIndex (residuals (orthRegCoeffs st) xx yy) (keepOdr st) = [] ->
  odrRound odr xx yy order rej region ii st = inl IndexError.
Proof.
  intros H. unfold odrRound, clipOf, np_percentile, bind. rewrite H. reflexivity.
Qed.

Lemma odrRound_exn (odr : list float -> list float -> nat -> list float -> list float)
      (xx yy : list float) (order : nat) (rej : float) (region : FitRegion)
      (ii : nat) (st : OdrState) (e : exn) :
  odrRound odr xx yy order rej region ii st = inl e ->
  (e = IndexError /\ boolIndex (residuals (orthRegCoeffs st) xx yy) (keepOdr st) = [])
  \/ exists n, e = RuntimeError n order /\ n < order.
Proof.
  unfold odrRound, bind.
  destruct (clipOf rej _ (keepOdr st)) as [e' | clip] eqn:Ec.
  - intros H. inversion H; subst. left.
    destruct (clipOf_exn _ _ _ Ec). auto.
  - match goal with |- context [Nat.ltb ?n order] =>
      destruct (Nat.ltb_spec n order) as [Hlt | Hge]; intros H;
        [inversion H; right; exists n; auto | discriminate]
    end.
Qed.

Lemma forEach_exn {S : Type} (body : nat -> S -> result S) (P : exn -> Prop) :
  (forall ii st e, body ii st = inl e -> P e) ->
  forall iis st e, forEach body iis st = inl e -> P e.
Proof.
  intros Hbody iis. induction iis as [| ii iis IH]; simpl; intros st e H.
  - discriminate.
  - unfold bind in H. destruct (body ii st) as [e' | st'] eqn:E.
    + inversion H; subst. exact (Hbody _ _ _ E).
    + exact (IH _ _ H).
Qed.

(** Over the whole fit, "Not enough good data points" is only ever raised
    with fewer points than the order. *)
Lemma colorColorPolyFitPlot_RuntimeError
      (lstsq : list float -> list float -> nat -> list float)
      (odr : list float -> list float -> nat -> list float -> list float)
      (xx yy : list float) (order iterations : nat) (rej : float)
      (region : FitRegion) (closeToVertical : bool) (n o : nat) :
  colorColorPolyFitPlot lstsq odr xx yy order iterations rej region closeToVertical
  = inl (RuntimeError n o) ->
  o = order /\ n < order.
Proof.
  unfold colorColorPolyFitPlot.
  set (xx1 := boolIndex xx _). set (yy1 := boolIndex yy _).
  destruct (initialFit lstsq xx1 yy1 order iterations rej region closeToVertical)
    as [e | pk] eqn:Einit; simpl.
  - intros H. inversion H; subst e; clear H.
    unfold initialFit in Einit. destruct closeToVertical.
    + destruct (xFitRange region) as [[a b] |]; discriminate.
    + unfold bind in Einit.
      destruct (forEach _ _ _) as [e | st] eqn:Eloop.
      * inversion Einit; subst e.
        apply (forEach_exn _ (fun e => e = TypeError \/ e = IndexError)) in Eloop;
          [destruct Eloop; discriminate |].
        intros ii s e. apply polyfitRound_exn.
      * destruct (Nat.eqb iterations 0); [discriminate |].
        destruct (Nat.ltb_spec (maskSum (maskAnd (keep st) (select st))) order)
          as [Hlt | Hge].
        -- inversion Einit; subst. auto.
        -- destruct (np_polyfit lstsq _ _ order) as [e | p] eqn:E; [| discriminate].
           apply np_polyfit_exn in E. subst e. discriminate.
  - unfold odrRefine, bind.
    destruct (forEach _ _ _) as [e | st] eqn:Eloop; [| discriminate].
    intros H. inversion H; subst e; clear H.
    apply (forEach_exn _ (fun e => e = IndexError
                                   \/ exists k, e = RuntimeError k order /\ k < order))
      in Eloop.
    + destruct Eloop as [E | [k [E Hk]]]; [discriminate |]. inversion E; subst. auto.
    + intros ii s e Hr. destruct (odrRound_exn _ _ _ _ _ _ _ _ Hr) as [[E _] | Hk]; auto.
Qed.

(** ** The near-vertical branch *)

(** C6, as stated, fails on "caller-specified": the function takes the flag
    [closeToVertical] and no initial guess. The call below seeds the slope 10
    and the intercept [-10*(1.05 + 0.4/3)], and no call whatever seeds the
    slope 20. *)
Lemma closeToVertical_seed_counterexample :
  (exists k,
     initialFit lstsqNormal [1.1; 1.2; 1.3]%float [0.9; 1.2; 1.5]%float 1 3 3
                (mkFitRegion (Some (1.05, 1.45)%float) None None None) true
     = inr ([10; -10 * (1.05 + (1.45 - 1.05) / 3)]%float, k))
  /\
  ~ (exists lstsq xx yy order iterations rej region b k,
       initialFit lstsq xx yy order iterations rej region true
       = inr ([20; b]%float, k)).
Proof.
  split.
  - eexists. vm_compute. reflexivity.
  - intros (lstsq & xx & yy & order & iterations & rej & region & b & k & H).
    unfold initialFit in H.
    destruct (xFitRange region) as [[a c] |]; [| discriminate].
    assert (Hs := f_equal (fun r : result (list float * list bool) =>
                             match r with
                             | inr (s :: _, _) => (s =? 10)%float
                             | _ => false
                             end) H).
    vm_compute in Hs. discriminate.
Qed.

(** C6, amended: with [closeToVertical] the function runs none of the
    [np.polyfit] rounds — its result does not depend on the least-squares
    routine, the order of the clipping, or their number — and the refinement is
    seeded with the polynomial of fixed slope 10 and of intercept
    [-10*(x0 + (x1 - x0)/3)], computed from the x fit range [(x0, x1)] the
    caller gave, over the points of the fit region. *)
Theorem closeToVertical_seed
        (lstsq : list float -> list float -> nat -> list float)
        (odr : list float -> list float -> nat -> list float -> list float)
        (xx yy : list float) (order iterations : nat) (rej : float)
        (region : FitRegion) (x0 x1 : float) :
  xFitRange region = Some (x0, x1) ->
  let seed := [10; -10 * (x0 + (x1 - x0) / 3)]%float in
  let good := maskAnd (map isfinite xx) (map isfinite yy) in
  let xx1 := boolIndex xx good in
  let yy1 := boolIndex yy good in
  let keep1 := maskAnd (onesLike xx1) (andAll (onesLike xx1) (regionMasks region xx1 yy1)) in
  initialFit lstsq xx1 yy1 order iterations rej region true = inr (seed, keep1) /\
  (forall lstsq', initialFit lstsq' xx1 yy1 order iterations rej region true
                  = initialFit lstsq xx1 yy1 order iterations rej region true) /\
  colorColorPolyFitPlot lstsq odr xx yy order iterations rej region true =
  (st <- forEach (odrRound odr xx1 yy1 order rej region) (seq 0 (iterations - 1))
                 (mkOdrState (odr (boolIndex xx1 keep1) (boolIndex yy1 keep1) order
                                  (rev seed)) keep1) ;;
   ret (mkLocusFit seed keep1 st)).
Proof.
  intros Hx seed good xx1 yy1 keep1.
  assert (Hinit : forall l, initialFit l xx1 yy1 order iterations rej region true
                            = inr (seed, keep1)).
  { intros l. unfold initialFit. rewrite Hx. reflexivity. }
  split; [apply Hinit |]. split; [intros l; rewrite !Hinit; reflexivity |].
  unfold colorColorPolyFitPlot. fold good. fold xx1. fold yy1.
  rewrite Hinit. reflexivity.
Qed.

Lemma closeToVertical_seed_witness :
  let region := mkFitRegion (Some (1.05, 1.45)%float) None None None in
  let xx := [1.1; 1.2; 1.3]%float in
  let yy := [0.9; 1.2; 1.5]%float in
  xFitRange region = Some (1.05, 1.45)%float /\
  initialFit lstsqNormal xx yy 1 3 3 region true
  = inr ([10; -10 * (1.05 + (1.45 - 1.05) / 3)]%float, [true; true; true]).
Proof.
  intros region xx yy. split; [reflexivity |].
  destruct (@closeToVertical_seed lstsqNormal odrKeepSeed xx yy 1 3 3 region
              1.05%float 1.45%float eq_refl) as [H _].
  exact H.
Defined.

(** C10: with [closeToVertical] set and no x fit range the call ends in the
    [TypeError] of subscripting [None], whatever the other arguments: no
    coefficient is produced, and the refinement is never entered. *)
Theorem closeToVertical_needs_xFitRange
        (lstsq : list float -> list float -> nat -> list float)
        (odr : list float -> list float -> nat -> list float -> list float)
        (xx yy : list float) (order iterations : nat) (rej : float)
        (region : FitRegion) :
  xFitRange region = None ->
  colorColorPolyFitPlot lstsq odr xx yy order iterations rej region true
  = inl TypeError.
Proof.
  intros Hx. unfold colorColorPolyFitPlot, initialFit. rewrite Hx. reflexivity.
Qed.

Lemma closeToVertical_needs_xFitRange_witness :
  let region := mkFitRegion None (Some (0.78, 1.65)%float) None None in
  xFitRange region = None /\
  colorColorPolyFitPlot lstsqNormal odrKeepSeed [1.1; 1.2; 1.3]%float
                        [0.9; 1.2; 1.5]%float 1 3 3 region true
  = inl TypeError.
Proof.
  intros region. split; [reflexivity |].
  exact (@closeToVertical_needs_xFitRange lstsqNormal odrKeepSeed
           [1.1; 1.2; 1.3]%float [0.9; 1.2; 1.5]%float 1 3 3 region eq_refl).
Defined.

(** ** ColorColorDistance.__call__ *)

Section MapM.

Context {A B : Type}.
Variable f : A -> result B.

Lemma mapM_length (l : list A) (r : list B) :
  mapM f l = inr r -> length r = length l.
Proof.
  revert r; induction l as [| a l IH]; simpl; intros r H.
  - inversion H; reflexivity.
  - unfold bind in H. destruct (f a) as [e | b]; [discriminate |].
    destruct (mapM f l) as [e | bs]; [discriminate |].
    inversion H; subst. simpl. f_equal. apply IH; reflexivity.
Qed.

Lemma mapM_nth (l : list A) (r : list B) (i : nat) (da : A) (db : B) :
  mapM f l = inr r -> i < length l -> f (nth i l da) = inr (nth i r db).
Proof.
  revert r i; induction l as [| a l IH]; simpl; intros r i H Hi; [lia |].
  unfold bind in H. destruct (f a) as [e | b] eqn:Ea; [discriminate |].
  destruct (mapM f l) as [e | bs] eqn:El; [discriminate |].
  inversion H; subst. destruct i as [| i]; simpl; [exact Ea |].
  apply IH; [reflexivity | lia].
Qed.

Lemma mapM_returns (l : list A) :
  (exists r, mapM f l = inr r) <-> (forall a, In a l -> exists b, f a = inr b).
Proof.
  induction l as [| a l IH]; simpl.
  - split; [intros _ a [] | intros _; eexists; reflexivity].
  - split.
    + intros [r H] a' Hin. unfold bind in H.
      destruct (f a) as [e | b] eqn:Ea; [discriminate |].
      destruct (mapM f l) as [e | bs] eqn:El; [discriminate |].
      destruct Hin as [<- | Hin]; [eauto |].
      apply IH; eauto.
    + intros Hall.
      destruct (Hall a (or_introl eq_refl)) as [b Hb].
      destruct (proj2 IH (fun a' Hin => Hall a' (or_intror Hin))) as [bs Hbs].
      exists (b :: bs). unfold bind. rewrite Hb, Hbs. reflexivity.
Qed.

End MapM.

Lemma combine_nth_lt {A B : Type} (a : list A) (b : list B) (i : nat) (da : A) (db : B) :
  i < length (combine a b) ->
  nth i (combine a b) (da, db) = (nth i a da, nth i b db).
Proof.
  revert b i; induction a as [| x a IH]; intros [| y b] [| i]; simpl;
    intros Hi; try lia; auto.
  apply IH; lia.
Qed.

Lemma pyMin_returns (l : list float) :
  (exists m, pyMin l = inr m) <-> l <> [].
Proof.
  destruct l as [| a l]; simpl; split.
  - intros [m H]; discriminate.
  - intros H; contradiction.
  - intros _; discriminate.
  - intros _; eexists; reflexivity.
Qed.

(** When the loop body returns for a point that is not excluded. *)
Lemma pointDistance2_returns (eigvals : list float -> result (list complex))
      (dist2 : float -> float -> float -> list float -> float)
      (self : ColorColorDistance) (x y : float) :
  excluded self x y = false ->
  ((exists d, pointDistance2 eigvals dist2 self (np_polyder (ccdPoly self)) x y = inr d)
   <->
   (exists r rs,
      (roots <- np_roots eigvals
                  (rootPolynomial (ccdPoly self) (np_polyder (ccdPoly self)) x y) ;;
       ret (filter isReal roots)) = inr (r :: rs))).
Proof.
  intros Hex. unfold pointDistance2. rewrite Hex. unfold bind.
  destruct (np_roots eigvals _) as [e | roots]; simpl.
  - split; [intros [d H]; discriminate | intros (r & rs & H); discriminate].
  - destruct (filter isReal roots) as [| r rs]; simpl.
    + split; [intros [d H]; discriminate | intros (r & rs & H); discriminate].
    + split; [intros _; eauto | intros _; eexists; reflexivity].
Qed.

Lemma nan_distance (sign scale : float) : (sqrt nan * sign * scale)%float = nan.
Proof.
  replace (sqrt nan) with nan by reflexivity. rewrite !mul_nan_l. reflexivity.
Qed.

(** C5, as stated, fails on "total, never propagates an exception". The
    locus [2^-600 * t^2] and the finite point [(1, 2^599)], with no bounds: the
    leading coefficient of the root polynomial underflows to zero, the linear
    terms cancel, what is left is the constant [-1], which has no root, and
    [min] of the empty sequence raises [ValueError] — whatever the eigenvalue
    routine and the distance helper, neither being reached. *)
Lemma ccdCall_counterexample :
  let self := ColorColorDistance_init [0x1p-600; 0; 0]%float 1 None None None None in
  let b1 := [1]%float in
  let b2 := [0]%float in
  let b3 := [-0x1p+599]%float in
  isfinite (1 - 0) = true /\ isfinite (0 - -0x1p+599) = true /\
  excluded self (1 - 0) (0 - -0x1p+599) = false /\
  rootPolynomial (ccdPoly self) (np_polyder (ccdPoly self)) (1 - 0) (0 - -0x1p+599)
  = [-1]%float /\
  forall eigvals dist2, ccdCall eigvals dist2 self b1 b2 b3 = inl ValueError.
Proof.
  intros self b1 b2 b3.
  split; [vm_compute; reflexivity |].
  split; [vm_compute; reflexivity |].
  split; [vm_compute; reflexivity |].
  split; [vm_compute; reflexivity |].
  intros eigvals dist2. vm_compute. reflexivity.
Qed.

(** C5, amended: a point with a non-finite coordinate, outside the x bounds
    or outside the bounding lines never reaches the root finder and gets the
    distance NaN, and an array that is returned has the length of the input.
    The call returns exactly when, for every other point, the root extraction
    returns and yields at least one real root; it has no handler, so an
    exception of the root extraction, or the [ValueError] of a minimum over no
    real root, ends the call. *)
Theorem ccdCall_excluded_nan (eigvals : list float -> result (list complex))
        (dist2 : float -> float -> float -> list float -> float)
        (self : ColorColorDistance) (b1 b2 b3 : list float) :
  let xx := zipWith PrimFloat.sub b1 b2 in
  let yy := zipWith PrimFloat.sub b2 b3 in
  let out := ccdCall eigvals dist2 self b1 b2 b3 in
  ((exists ds, out = inr ds)
   <->
   (forall x y, In (x, y) (combine xx yy) -> excluded self x y = false ->
      exists r rs,
        (roots <- np_roots eigvals
                    (rootPolynomial (ccdPoly self) (np_polyder (ccdPoly self)) x y) ;;
         ret (filter isReal roots)) = inr (r :: rs)))
  /\
  (forall ds, out = inr ds ->
     length ds = length (combine xx yy) /\
     (length b1 = length b2 -> length b2 = length b3 -> length ds = length b1) /\
     forall i, i < length ds ->
       excluded self (nth i xx 0%float) (nth i yy 0%float) = true ->
       is_nan (nth i ds 0%float) = true).
Proof.
  intros xx yy out. subst out. unfold ccdCall. fold xx. fold yy.
  set (body := fun xy : float * float =>
                 pointDistance2 eigvals dist2 self (np_polyder (ccdPoly self))
                                (fst xy) (snd xy)).
  split.
  - (* when the call returns *)
    assert (Hbody : (exists r, mapM body (combine xx yy) = inr r) <->
                    (exists ds,
                       (distance2 <- mapM body (combine xx yy) ;;
                        ret (zipWith
                               (fun d2 xy =>
                                  (sqrt d2
                                   * (if (np_polyval (ccdPoly self) (fst xy) <=? snd xy)%float
                                      then 1 else -1)
                                   * unitScale self)%float)
                               distance2 (combine xx yy))) = inr ds)).
    { unfold bind. destruct (mapM body (combine xx yy)) as [e | r]; split.
      - intros [r' H]; discriminate.
      - intros [ds H]; discriminate.
      - intros _. eexists; reflexivity.
      - intros _. eexists; reflexivity. }
    rewrite <- Hbody, mapM_returns. split.
    + intros Hall x y Hin Hex.
      apply (pointDistance2_returns eigvals dist2 self x y Hex).
      exact (Hall (x, y) Hin).
    + intros Hall [x y] Hin. unfold body; simpl.
      destruct (excluded self x y) eqn:Hex.
      * exists nan. unfold pointDistance2. rewrite Hex. reflexivity.
      * apply (pointDistance2_returns eigvals dist2 self x y Hex).
        exact (Hall x y Hin Hex).
  - (* what a returned array holds *)
    intros ds H. unfold bind in H.
    destruct (mapM body (combine xx yy)) as [e | d2s] eqn:Em; [discriminate |].
    inversion H; subst ds; clear H.
    pose proof (mapM_length _ _ Em) as Hlen.
    assert (Hl : length (zipWith
                           (fun d2 xy =>
                              (sqrt d2
                               * (if (np_polyval (ccdPoly self) (fst xy) <=? snd xy)%float
                                  then 1 else -1)
                               * unitScale self)%float)
                           d2s (combine xx yy)) = length (combine xx yy)).
    { rewrite zipWith_length, Hlen. apply Nat.min_id. }
    split; [exact Hl |]. split.
    + intros H12 H23. rewrite Hl, length_combine.
      unfold xx, yy. rewrite !zipWith_length. lia.
    + intros i Hi Hex. rewrite Hl in Hi.
      rewrite (@zipWith_nth _ _ _ _ d2s (combine xx yy) i nan (0%float, 0%float) 0%float)
        by lia.
      pose proof (@mapM_nth _ _ body (combine xx yy) d2s i (0%float, 0%float) nan Em Hi)
        as Hi2.
      assert (Hnth : nth i (combine xx yy) (0%float, 0%float)
                     = (nth i xx 0%float, nth i yy 0%float))
        by (apply combine_nth_lt; exact Hi).
      unfold body in Hi2. rewrite Hnth in Hi2. simpl in Hi2.
      unfold pointDistance2 in Hi2. rewrite Hex in Hi2.
      inversion Hi2 as [Hd]. rewrite nan_distance. reflexivity.
Qed.

(** * Further properties of the code *)

(** ** More facts about binary64, arrays and masks *)

Lemma leb_nan_l (c : float) : (nan <=? c)%float = false.
Proof.
  rewrite leb_spec, Prim2SF_nan. reflexivity.
Qed.

Lemma leb_nan_r (c : float) : (c <=? nan)%float = false.
Proof.
  rewrite leb_spec, Prim2SF_nan. unfold SFleb.
  destruct (Prim2SF c); reflexivity.
Qed.

Lemma leb_refl (v : float) : is_nan v = false -> (v <=? v)%float = true.
Proof.
  unfold is_nan. rewrite eqb_spec, leb_spec. unfold SFeqb, SFleb.
  destruct (SFcompare (Prim2SF v) (Prim2SF v)) as [[| |] |]; simpl;
    intros H; try discriminate; reflexivity.
Qed.

(** The square root of a negative number is NaN. *)
Lemma sqrt_negative (x : float) : (x <? 0)%float = true -> sqrt x = nan.
Proof.
  rewrite ltb_spec. replace (Prim2SF 0) with (S754_zero false) by reflexivity.
  intros H. apply Prim2SF_inj. rewrite sqrt_spec, Prim2SF_nan.
  destruct (Prim2SF x) as [s | s | | s m e]; simpl in H; try discriminate.
  - destruct s; [reflexivity | discriminate].
  - destruct s; [reflexivity | discriminate].
Qed.

Lemma isfinite_nan_false (x : float) : is_nan x = true -> isfinite x = false.
Proof.
  intros H. unfold isfinite, is_finite. rewrite H. reflexivity.
Qed.

Lemma maskSum_cons (b : bool) (m : list bool) :
  maskSum (b :: m) = (if b then 1 else 0) + maskSum m.
Proof.
  unfold maskSum. destruct b; reflexivity.
Qed.

Lemma maskSum_maskAnd_le (m1 m2 : list bool) : maskSum (maskAnd m1 m2) <= maskSum m1.
Proof.
  unfold maskAnd. revert m2.
  induction m1 as [| a m1 IH]; intros [| b m2]; simpl zipWith;
    rewrite ?maskSum_cons; try (unfold maskSum; simpl; lia).
  specialize (IH m2). destruct a, b; simpl; lia.
Qed.


Lemma boolIndex_ext {A : Type} (a a' : list A) (m : list bool) (d : A) :
  length a = length a' ->
  (forall i, nth i m false = true -> nth i a d = nth i a' d) ->
  boolIndex a m = boolIndex a' m.
Proof.
  revert a' m; induction a as [| x a IH]; intros [| y a'] [| b m] Hlen H;
    simpl in *; try reflexivity; try discriminate.
  assert (Ht : boolIndex a m = boolIndex a' m).
  { apply IH; [lia |]. intros i Hi. exact (H (S i) Hi). }
  destruct b.
  - rewrite (H 0 eq_refl), Ht. reflexivity.
  - exact Ht.
Qed.

Lemma boolIndex_Forall {A : Type} (P : A -> Prop) (a : list A) (m : list bool) (d : A) :
  (forall i, i < length a -> nth i m false = true -> P (nth i a d)) ->
  Forall P (boolIndex a m).
Proof.
  revert m; induction a as [| x a IH]; intros [| b m] H; simpl; try constructor.
  assert (Ht : Forall P (boolIndex a m)).
  { apply IH. intros i Hi Hm. apply (H (S i)); simpl; [lia | exact Hm]. }
  destruct b; [constructor; [apply (H 0); simpl; [lia | reflexivity] | exact Ht] | exact Ht].
Qed.

Lemma maskSubset_trans (m1 m2 m3 : list bool) :
  maskSubset m1 m2 -> maskSubset m2 m3 -> maskSubset m1 m3.
Proof.
  intros H12 H23 i Hi. apply H23, H12, Hi.
Qed.

Lemma maskSubset_refl (m : list bool) : maskSubset m m.
Proof. intros i Hi; exact Hi. Qed.

Lemma nth_map_true {A : Type} (f : A -> bool) (l : list A) (i : nat) (d : A) :
  nth i (map f l) false = true -> i < length l /\ f (nth i l d) = true.
Proof.
  revert i; induction l as [| x l IH]; intros [| i]; simpl; intros H;
    try discriminate.
  - split; [lia | exact H].
  - destruct (IH i H) as [Hi Hf]. split; [lia | exact Hf].
Qed.

(** ** More on Analysis.calculateStats *)

Lemma goodMask_ext (q q' : list float) (sel : list bool) (med c : float) :
  length q = length q' ->
  (forall i, nth i sel false = true -> nth i q 0%float = nth i q' 0%float) ->
  goodMask q sel med c = goodMask q' sel med c.
Proof.
  unfold goodMask, maskAnd. revert q' sel.
  induction q as [| x q IH]; intros [| y q'] [| b sel] Hlen H;
    simpl in *; try reflexivity; try discriminate.
  f_equal.
  - destruct b; [| reflexivity]. rewrite (H 0 eq_refl). reflexivity.
  - apply IH; [lia |]. intros i Hi. exact (H (S i) Hi).
Qed.

(** X1: the number of used entries never exceeds the number of selected
    ones, and the used mask is a sub-mask of the selection. *)
Theorem calculateStats_num_le_total (configClip : float) (quantity : list float)
        (selection : list bool) (fm : option float) :
  let s := calculateStats configClip quantity selection fm in
  num s <= total s /\
  total s = maskSum selection /\
  forall used, dataUsed s = UsedMask used ->
    maskSubset used selection /\ num s = maskSum used.
Proof.
  intros s. subst s. unfold calculateStats.
  destruct (Nat.eqb_spec (maskSum selection) 0) as [E | Hne]; simpl.
  - split; [lia |]. split; [symmetry; exact E |]. intros used H; discriminate.
  - split; [apply maskSum_maskAnd_le |]. split; [reflexivity |].
    intros used H. inversion H; subst used.
    split; [apply maskAnd_subset_l | reflexivity].
Qed.

(** X2: the values of the entries the mask does not select play no part:
    two value arrays of one length that agree on the selected entries give
    the same result. *)
Theorem calculateStats_unselected_irrelevant (configClip : float)
        (quantity quantity' : list float) (selection : list bool) (fm : option float) :
  length quantity = length quantity' ->
  (forall i, nth i selection false = true ->
             nth i quantity 0%float = nth i quantity' 0%float) ->
  calculateStats configClip quantity selection fm
  = calculateStats configClip quantity' selection fm.
Proof.
  intros Hlen Hsel. unfold calculateStats.
  destruct (Nat.eqb (maskSum selection) 0); [reflexivity |].
  rewrite <- (boolIndex_ext quantity quantity' selection 0%float Hlen Hsel).
  set (med := percentile (boolIndex quantity selection) 50).
  set (c := (configClip * 0.74 * _)%float).
  rewrite <- (goodMask_ext quantity quantity' selection med c Hlen Hsel).
  assert (Hb : boolIndex quantity (goodMask quantity selection med c)
               = boolIndex quantity' (goodMask quantity selection med c)).
  { apply (boolIndex_ext _ _ _ 0%float Hlen). intros i Hi. apply Hsel.
    exact (maskAnd_subset_l _ _ _ Hi). }
  rewrite <- Hb. reflexivity.
Qed.

Lemma calculateStats_unselected_irrelevant_witness :
  let q := [1; 2; 3; 4; 100]%float in
  let q' := [1; nan; 3; 4; -7]%float in
  let sel := [true; false; true; true; false] in
  length q = length q' /\
  calculateStats 4 q sel None = calculateStats 4 q' sel None.
Proof.
  intros q q' sel. split; [reflexivity |].
  apply (@calculateStats_unselected_irrelevant 4 q q' sel None eq_refl).
  intros [| [| [| [| [| i]]]]] H; simpl in *; try reflexivity; try discriminate;
    destruct i; discriminate.
Defined.

(** X3: [forcedMean] moves the centre of the deviations and nothing else:
    whatever is forced, the used mask, the counts, the mean, the median and the
    threshold are the same. *)
Theorem calculateStats_forcedMean_only_stdev (configClip : float)
        (quantity : list float) (selection : list bool) (fm1 fm2 : option float) :
  let s1 := calculateStats configClip quantity selection fm1 in
  let s2 := calculateStats configClip quantity selection fm2 in
  dataUsed s1 = dataUsed s2 /\ num s1 = num s2 /\ total s1 = total s2 /\
  mean s1 = mean s2 /\ median s1 = median s2 /\ clip s1 = clip s2.
Proof.
  intros s1 s2. subst s1 s2. unfold calculateStats.
  destruct (Nat.eqb (maskSum selection) 0); simpl; repeat split; reflexivity.
Qed.

(** ** More on Analysis.calculateSysError *)

(** X4: nothing keeps the root non-negative. When the solver reports
    success at a negative [x[0]], the method returns NaN, and it prints no
    warning. *)
Theorem calculateSysError_negative_root
        (root : (float -> float) -> float -> float -> OptimizeResult)
        (configClip : float) (quantity error : list float) (selection : list bool)
        (fm : option float) (tol : float) :
  let r := root (sysErrFunction configClip quantity error selection fm) 0%float tol in
  success r = true ->
  (x0 r <? 0)%float = true ->
  let out := calculateSysError root configClip quantity error selection fm tol in
  fst out = nan /\ forall msg, ~ In (PrintWarning msg) (snd out).
Proof.
  intros r Hs Hneg out. subst out. unfold calculateSysError. fold r.
  rewrite Hs. simpl. rewrite (@sqrt_negative _ Hneg).
  split; [reflexivity |]. intros msg [E | E]; [discriminate | contradiction].
Qed.

Lemma calculateSysError_negative_root_witness :
  let root := rootAt (-4)%float in
  let r := root (sysErrFunction 4 [1; 2; 3]%float [1; 1; 1]%float
                                [true; true; true] None) 0%float 1.0e-3%float in
  success r = true /\ (x0 r <? 0)%float = true /\
  fst (calculateSysError root 4 [1; 2; 3]%float [1; 1; 1]%float
                         [true; true; true] None 1.0e-3%float) = nan.
Proof.
  intros root r. split; [reflexivity |]. split; [reflexivity |].
  exact (proj1 (@calculateSysError_negative_root root 4 [1; 2; 3]%float [1; 1; 1]%float
                  [true; true; true] None 1.0e-3%float eq_refl eq_refl)).
Defined.

(** ** Enforcer *)

Lemma enforceLabel_nan (greater doRaise : bool) (stats : list (String.string * Stats))
      (label : String.string) (s : Stats) (limits : list (StatAttr * float))
      (log : list warning) :
  dictGet stats label = Some s ->
  (forall ss, is_nan (getattrStats s ss) = true) ->
  enforceLabel greater doRaise stats label limits log = (log, None).
Proof.
  intros Hget Hnan. induction limits as [| [ss limit] rest IH]; simpl.
  - reflexivity.
  - rewrite Hget. rewrite (is_nan_eq _ (Hnan ss)).
    rewrite leb_nan_l, leb_nan_r. destruct greater; exact IH.
Qed.

Lemma enforceAll_nan (greater doRaise : bool) (stats : list (String.string * Stats))
      (limits : list (String.string * list (StatAttr * float))) (log : list warning) :
  (forall label ls, In (label, ls) limits -> ls <> [] ->
     exists s, dictGet stats label = Some s /\
               forall ss, is_nan (getattrStats s ss) = true) ->
  enforceAll greater doRaise stats limits log = (log, None).
Proof.
  induction limits as [| [label ls] rest IH]; simpl; intros H.
  - reflexivity.
  - assert (Hl : enforceLabel greater doRaise stats label ls log = (log, None)).
    { destruct ls as [| l ls'].
      - reflexivity.
      - destruct (H label (l :: ls') (or_introl eq_refl)) as [s [Hget Hnan]];
          [discriminate |].
        exact (enforceLabel_nan greater doRaise stats label (l :: ls') log Hget Hnan). }
    rewrite Hl. apply IH. intros label' ls' Hin. apply H. right; exact Hin.
Qed.

(** X5: a statistic that is NaN passes every limit in silence. In
    particular, when each data set a limit names has no selected point, so
    that its [calculateStats] result holds NaN, the enforcer logs nothing and
    raises nothing, whatever the limits and with [doRaise] set. *)
Theorem Enforcer_silent_on_empty_selection (self : Enforcer)
        (stats : list (String.string * Stats)) :
  (forall label ls, In (label, ls) (requireGreater self ++ requireLess self) ->
     ls <> [] ->
     exists configClip quantity selection fm,
       dictGet stats label = Some (calculateStats configClip quantity selection fm) /\
       maskSum selection = 0) ->
  Enforcer_call self stats = ([], None).
Proof.
  intros H.
  assert (Hnan : forall label ls,
             In (label, ls) (requireGreater self ++ requireLess self) -> ls <> [] ->
             exists s, dictGet stats label = Some s /\
                       forall ss, is_nan (getattrStats s ss) = true).
  { intros label ls Hin Hne.
    destruct (H label ls Hin Hne) as (c & q & sel & fm & Hget & H0).
    eexists. split; [exact Hget |].
    intros ss. unfold calculateStats. rewrite H0. destruct ss; reflexivity. }
  unfold Enforcer_call.
  rewrite enforceAll_nan
    by (intros l ls Hin; apply Hnan, in_or_app; left; exact Hin).
  apply enforceAll_nan.
  intros l ls Hin. apply Hnan, in_or_app. right; exact Hin.
Qed.

Lemma Enforcer_silent_on_empty_selection_witness :
  let self := mkEnforcer [] [(Labels.star, [(AttrStdev, 0.02%float)])] true in
  let stats := [(Labels.star, calculateStats 4 [1; 2]%float [false; false] None)] in
  maskSum [false; false] = 0 /\ Enforcer_call self stats = ([], None).
Proof.
  intros self stats. split; [reflexivity |].
  apply (@Enforcer_silent_on_empty_selection self stats).
  intros label ls [E | []] _. inversion E; subst.
  exists 4%float, [1; 2]%float, [false; false], None. split; reflexivity.
Defined.

Lemma enforceLabel_noRaise (greater : bool) (stats : list (String.string * Stats))
      (label : String.string) (limits : list (StatAttr * float)) (log : list warning) :
  (limits <> [] -> dictGet stats label = None ->
   enforceLabel greater false stats label limits log = (log, Some (KeyError label)))
  /\
  (forall s, dictGet stats label = Some s ->
   exists log', enforceLabel greater false stats label limits log = (log', None)).
Proof.
  split.
  - intros Hne Hget. destruct limits as [| [ss limit] rest]; [contradiction |].
    simpl. rewrite Hget. reflexivity.
  - intros s Hget. revert log.
    induction limits as [| [ss limit] rest IH]; intros log; simpl.
    + eexists; reflexivity.
    + rewrite Hget.
      destruct (if greater then _ else _); apply IH.
Qed.

Lemma enforceAll_noRaise (greater : bool) (stats : list (String.string * Stats))
      (limits : list (String.string * list (StatAttr * float))) (log : list warning) :
  (forall w, snd (enforceAll greater false stats limits log) <> Some (AssertionError w))
  /\
  (snd (enforceAll greater false stats limits log) = None <->
   forall label ls, In (label, ls) limits -> ls <> [] -> dictGet stats label <> None).
Proof.
  revert log. induction limits as [| [label ls] rest IH]; intros log; simpl.
  - split; [intros w; discriminate |].
    split; [intros _ label ls [] | reflexivity].
  - destruct (dictGet stats label) as [s |] eqn:Hget.
    + destruct (proj2 (enforceLabel_noRaise greater stats label ls log) s Hget)
        as [log' Hl].
      rewrite Hl. destruct (IH log') as [IH1 IH2]. split; [exact IH1 |].
      rewrite IH2. split.
      * intros H l' ls' [E | Hin] Hne; [inversion E; subst; congruence | eauto].
      * intros H l' ls' Hin. apply H. right; exact Hin.
    + destruct ls as [| l ls'].
      * simpl. destruct (IH log) as [IH1 IH2]. split; [exact IH1 |].
        rewrite IH2. split.
        -- intros H l' ls'' [E | Hin] Hne; [inversion E; subst; contradiction | eauto].
        -- intros H l' ls'' Hin. apply H. right; exact Hin.
      * rewrite (proj1 (enforceLabel_noRaise greater stats label (l :: ls') log))
          by (try discriminate; exact Hget).
        simpl. split; [intros w; discriminate |].
        split; [discriminate |].
        intros H. exfalso.
        apply (H label (l :: ls') (or_introl eq_refl)); [discriminate | exact Hget].
Qed.

(** X6: with [doRaise] unset the enforcer never raises [AssertionError], but
    it is not exception-free: it returns normally exactly when every label
    that has a limit is a key of the statistics, and ends in [KeyError]
    otherwise. *)
Theorem Enforcer_without_doRaise (self : Enforcer) (stats : list (String.string * Stats)) :
  doRaise self = false ->
  (forall w, snd (Enforcer_call self stats) <> Some (AssertionError w)) /\
  (snd (Enforcer_call self stats) = None <->
   forall label ls, In (label, ls) (requireGreater self ++ requireLess self) ->
                    ls <> [] -> dictGet stats label <> None).
Proof.
  intros Hd. unfold Enforcer_call. rewrite Hd.
  destruct (enforceAll true false stats (requireGreater self) []) as [log1 e1] eqn:E1.
  pose proof (enforceAll_noRaise true stats (requireGreater self) []) as [Ha1 Hb1].
  rewrite E1 in Ha1, Hb1. simpl in Ha1, Hb1.
  destruct e1 as [e |].
  - simpl. split; [exact Ha1 |].
    split; [discriminate |].
    intros H. apply Hb1. intros l ls Hin. apply H, in_or_app. left; exact Hin.
  - pose proof (enforceAll_noRaise false stats (requireLess self) log1) as [Ha2 Hb2].
    destruct (enforceAll false false stats (requireLess self) log1) as [log2 e2].
    simpl in *. split; [exact Ha2 |].
    rewrite Hb2. split.
    + intros H l ls Hin. apply in_app_or in Hin. destruct Hin as [Hin | Hin].
      * apply (proj1 Hb1 eq_refl l ls Hin).
      * apply (H l ls Hin).
    + intros H l ls Hin. apply H, in_or_app. right; exact Hin.
Qed.

Lemma Enforcer_without_doRaise_witness :
  let self := mkEnforcer [] [(Labels.star, [(AttrStdev, 0.02%float)])] false in
  let stats := [(Labels.galaxy, calculateStats 4 [1; 2]%float [true; true] None)] in
  doRaise self = false /\
  Enforcer_call self stats = ([], Some (KeyError Labels.star)) /\
  (forall w, snd (Enforcer_call self stats) <> Some (AssertionError w)).
Proof.
  intros self stats. split; [reflexivity |]. split; [reflexivity |].
  exact (proj1 (@Enforcer_without_doRaise self stats eq_refl)).
Defined.

Lemma enforceLabel_doRaise (greater : bool) (stats : list (String.string * Stats))
      (label : String.string) (limits : list (StatAttr * float)) (log : list warning) :
  let r := enforceLabel greater true stats label limits log in
  (fst r = log /\ (snd r = None \/ exists l, snd r = Some (KeyError l)))
  \/ (exists w, fst r = log ++ [w] /\ snd r = Some (AssertionError w)).
Proof.
  induction limits as [| [ss limit] rest IH]; simpl.
  - left. auto.
  - destruct (dictGet stats label) as [s |].
    + destruct (if greater then _ else _).
      * right. eexists. split; reflexivity.
      * exact IH.
    + left. split; [reflexivity |]. right. eexists; reflexivity.
Qed.

Lemma enforceAll_doRaise (greater : bool) (stats : list (String.string * Stats))
      (limits : list (String.string * list (StatAttr * float))) (log : list warning) :
  let r := enforceAll greater true stats limits log in
  (fst r = log /\ (snd r = None \/ exists l, snd r = Some (KeyError l)))
  \/ (exists w, fst r = log ++ [w] /\ snd r = Some (AssertionError w)).
Proof.
  induction limits as [| [label ls] rest IH]; simpl.
  - left. auto.
  - pose proof (enforceLabel_doRaise greater stats label ls log) as Hl.
    destruct (enforceLabel greater true stats label ls log) as [log' [e |]];
      simpl in Hl.
    + exact Hl.
    + destruct Hl as [[Hlog _] | [w [_ Hw]]]; [| discriminate].
      subst log'. exact IH.
Qed.

(** X7: with [doRaise] set the first limit that is not met ends the call:
    either nothing is logged and the call returns or ends in [KeyError], or
    exactly one warning is logged and the [AssertionError] raised carries that
    very text. *)
Theorem Enforcer_with_doRaise (self : Enforcer) (stats : list (String.string * Stats)) :
  doRaise self = true ->
  let r := Enforcer_call self stats in
  (fst r = [] /\ (snd r = None \/ exists l, snd r = Some (KeyError l)))
  \/ (exists w, fst r = [w] /\ snd r = Some (AssertionError w)).
Proof.
  intros Hd r. subst r. unfold Enforcer_call. rewrite Hd.
  pose proof (enforceAll_doRaise true stats (requireGreater self) []) as H1.
  destruct (enforceAll true true stats (requireGreater self) []) as [log1 [e1 |]];
    simpl in H1.
  - exact H1.
  - destruct H1 as [[Hlog _] | [w [_ Hw]]]; [| discriminate]. subst log1.
    exact (enforceAll_doRaise false stats (requireLess self) []).
Qed.

Lemma Enforcer_with_doRaise_witness :
  let self := mkEnforcer [] [(Labels.star, [(AttrStdev, 0.02%float); (AttrMean, 0%float)])]
                         true in
  let stats := [(Labels.star, calculateStats 4 [1; 2; 3]%float [true; true; true] None)] in
  doRaise self = true /\
  ((fst (Enforcer_call self stats) = [] /\
    (snd (Enforcer_call self stats) = None \/
     exists l, snd (Enforcer_call self stats) = Some (KeyError l)))
   \/ (exists w, fst (Enforcer_call self stats) = [w] /\
                 snd (Enforcer_call self stats) = Some (AssertionError w))).
Proof.
  intros self stats. split; [reflexivity |].
  exact (@Enforcer_with_doRaise self stats eq_refl).
Defined.

(** X8: the limits are exclusive. A statistic that equals its limit is
    reported as exceeding it, by [requireLess] and by [requireGreater]
    alike. *)
Theorem Enforcer_limit_is_exclusive (stats : list (String.string * Stats))
        (label : String.string) (s : Stats) (ss : StatAttr) (raising : bool) :
  dictGet stats label = Some s ->
  is_nan (getattrStats s ss) = false ->
  let limit := getattrStats s ss in
  Enforcer_call (mkEnforcer [] [(label, [(ss, limit)])] raising) stats
  = ([ExceedsMaximum label ss limit limit],
     if raising then Some (AssertionError (ExceedsMaximum label ss limit limit)) else None)
  /\
  Enforcer_call (mkEnforcer [(label, [(ss, limit)])] [] raising) stats
  = ([ExceedsMinimum label ss limit limit],
     if raising then Some (AssertionError (ExceedsMinimum label ss limit limit)) else None).
Proof.
  intros Hget Hnan limit.
  assert (Hl : (limit <=? limit)%float = true) by exact (@leb_refl limit Hnan).
  unfold Enforcer_call, enforceAll, enforceLabel, requireGreater, requireLess, doRaise.
  rewrite Hget. fold limit. rewrite Hl.
  destruct raising; split; reflexivity.
Qed.

Lemma Enforcer_limit_is_exclusive_witness :
  let s := calculateStats 4 [1; 2; 3]%float [true; true; true] None in
  let stats := [(Labels.star, s)] in
  dictGet stats Labels.star = Some s /\
  is_nan (getattrStats s AttrMean) = false /\
  Enforcer_call (mkEnforcer [] [(Labels.star, [(AttrMean, mean s)])] true) stats
  = ([ExceedsMaximum Labels.star AttrMean (mean s) (mean s)],
     Some (AssertionError (ExceedsMaximum Labels.star AttrMean (mean s) (mean s)))).
Proof.
  intros s stats. split; [reflexivity |]. split; [reflexivity |].
  exact (proj1 (@Enforcer_limit_is_exclusive stats Labels.star s AttrMean true
                  eq_refl eq_refl)).
Defined.

(** ** Analysis.__init__ and Analysis.stats *)

Lemma fold_flags_subset (flags : list (option (list bool))) (g : list bool) :
  maskSubset
    (fold_left (fun g ff => match ff with
                            | Some col => maskAnd g (maskNot col)
                            | None => g
                            end) flags g) g.
Proof.
  revert g; induction flags as [| ff flags IH]; intros g; simpl.
  - apply maskSubset_refl.
  - eapply maskSubset_trans; [apply IH |].
    destruct ff; [apply maskAnd_subset_l | apply maskSubset_refl].
Qed.

Lemma fold_maskAnd_subset (keys : list (list bool)) (g : list bool) :
  maskSubset (fold_left maskAnd keys g) g.
Proof.
  exact (@andAll_subset keys g).
Qed.

(** What the mask [self.good] guarantees, entry by entry. *)
Lemma goodOf_finite (quantity : list float) (quantityError : option (list float))
      (mag : list float) (flags : list (option (list bool)))
      (goodKeys : list (list bool)) (i : nat) :
  nth i (goodOf quantity quantityError mag flags goodKeys) false = true ->
  (i < length quantity /\ isfinite (nth i quantity 0%float) = true) /\
  (i < length mag /\ isfinite (nth i mag 0%float) = true) /\
  (forall e, quantityError = Some e ->
             i < length e /\ isfinite (nth i e 0%float) = true).
Proof.
  unfold goodOf. intros H.
  apply fold_maskAnd_subset, fold_flags_subset in H.
  destruct quantityError as [e |].
  - pose proof (maskAnd_subset_r _ _ _ H) as He.
    apply maskAnd_subset_l in H.
    pose proof (maskAnd_subset_l _ _ _ H) as Hq.
    pose proof (maskAnd_subset_r _ _ _ H) as Hm.
    split; [exact (nth_map_true isfinite quantity i 0%float Hq) |].
    split; [exact (nth_map_true isfinite mag i 0%float Hm) |].
    intros e' E. inversion E; subst e'.
    exact (nth_map_true isfinite e i 0%float He).
  - pose proof (maskAnd_subset_l _ _ _ H) as Hq.
    pose proof (maskAnd_subset_r _ _ _ H) as Hm.
    split; [exact (nth_map_true isfinite quantity i 0%float Hq) |].
    split; [exact (nth_map_true isfinite mag i 0%float Hm) |].
    intros e' E. discriminate.
Qed.

(** X9: every array [Analysis.__init__] hands to the statistics is free of
    NaN and of infinities: in each data set the quantities, the magnitudes and
    the errors are all finite, whatever the catalog, the flags and the
    labeller. *)
Theorem Analysis_init_data_finite (log10 : float -> float) (quantity : list float)
        (quantityError : option (list float)) (flux : list float)
        (flags : list (option (list bool))) (goodKeys : list (list bool))
        (labels : list Z) (labelNames : list (String.string * Z))
        (name : String.string) (d : Data) :
  In (name, d)
     (aData (Analysis_init log10 quantity quantityError flux flags goodKeys
                           labels labelNames)) ->
  Forall (fun q => isfinite q = true) (dQuantity d) /\
  Forall (fun m => isfinite m = true) (dMag d) /\
  (forall e, dError d = Some e -> Forall (fun v => isfinite v = true) e).
Proof.
  unfold Analysis_init. simpl. intros Hin.
  apply in_map_iff in Hin. destruct Hin as [[n v] [E _]].
  inversion E; subst name d; clear E. simpl.
  set (mag := map (fun f => (-2.5 * log10 f)%float) flux).
  set (good := goodOf quantity quantityError mag flags goodKeys).
  assert (Hsel : forall i, nth i (maskAnd good (labelIs labels v)) false = true ->
                           nth i good false = true)
    by (intros i; apply maskAnd_subset_l).
  split; [| split].
  - apply (boolIndex_Forall _ _ _ 0%float). intros i _ Hi.
    exact (proj2 (proj1 (@goodOf_finite quantity quantityError mag flags goodKeys i (Hsel i Hi)))).
  - apply (boolIndex_Forall _ _ _ 0%float). intros i _ Hi.
    exact (proj2 (proj1 (proj2 (@goodOf_finite quantity quantityError mag flags goodKeys i
                                   (Hsel i Hi))))).
  - intros e He. destruct quantityError as [qe |]; [| discriminate].
    inversion He; subst e.
    apply (boolIndex_Forall _ _ _ 0%float). intros i _ Hi.
    exact (proj2 (proj2 (proj2 (@goodOf_finite quantity (Some qe) mag flags goodKeys i
                                   (Hsel i Hi))) qe eq_refl)).
Qed.

Lemma Analysis_init_data_finite_witness :
  let a := Analysis_init (fun f => f) [1; nan; 3; infinity]%float None
                         [1; 1; nan; 1]%float [] [] (StarGalaxyLabeller [0; 0; 0; 1]%float)
                         Labels.StarGalaxyLabeller_labels in
  In (Labels.star, mkData [1]%float [-2.5]%float [true; false; false; false] None)
     (aData a) /\
  Forall (fun q => isfinite q = true) [1]%float.
Proof.
  intros a.
  assert (Hin : In (Labels.star,
                    mkData [1]%float [-2.5]%float [true; false; false; false] None)
                   (aData a)) by (left; vm_compute; reflexivity).
  split; [exact Hin |].
  exact (proj1 (@Analysis_init_data_finite _ _ _ _ _ _ _ _ _ _ Hin)).
Defined.

Lemma dictGet_dictSet {V : Type} (d : list (String.string * V))
      (key key' : String.string) (v : V) :
  dictGet (dictSet d key v) key'
  = if String.eqb key key' then Some v else dictGet d key'.
Proof.
  induction d as [| [k w] d IH]; simpl.
  - reflexivity.
  - destruct (String.eqb_spec k key) as [-> | Hk]; simpl.
    + destruct (String.eqb key key'); reflexivity.
    + rewrite IH. destruct (String.eqb_spec k key') as [-> | Hk'].
      * destruct (String.eqb_spec key key') as [E | _]; [congruence | reflexivity].
      * reflexivity.
Qed.

Lemma dictSet_nonempty {V : Type} (d : list (String.string * V))
      (key : String.string) (v : V) :
  Nat.eqb (length (dictSet d key v)) 0 = false.
Proof.
  destruct d as [| [k w] d]; simpl; [reflexivity |].
  destruct (String.eqb k key); reflexivity.
Qed.

Lemma statsLoop_entries
      (root : (float -> float) -> float -> float -> OptimizeResult)
      (configClip magThreshold : float) (hasError : bool) (forcedMean : option float)
      (items : list (String.string * Data)) (acc : list (String.string * StatsEntry)) :
  NoDup (map fst items) ->
  exists d,
    statsLoop root configClip magThreshold hasError forcedMean items (Some acc)
    = inr (Some d) /\
    forall name,
      dictGet d name =
      match dictGet items name with
      | Some data =>
          if Nat.eqb (length (dMag data)) 0 then dictGet acc name
          else Some (statsEntryOf root configClip magThreshold hasError forcedMean data)
      | None => dictGet acc name
      end.
Proof.
  revert acc. induction items as [| [n data] rest IH]; intros acc Hnd; simpl.
  - exists acc. split; [reflexivity | intros; reflexivity].
  - inversion Hnd as [| ? ? Hnotin Hnd']; subst.
    assert (Hrest : forall name, String.eqb n name = true -> dictGet rest name = None).
    { intros name E. apply String.eqb_eq in E. subst name.
      clear IH Hnd Hnd'. induction rest as [| [k w] rest IHr]; simpl; [reflexivity |].
      destruct (String.eqb_spec k n) as [-> | Hk].
      - exfalso. apply Hnotin. left; reflexivity.
      - apply IHr. intros Hin. apply Hnotin. right; exact Hin. }
    destruct (Nat.eqb (length (dMag data)) 0) eqn:Elen.
    + destruct (IH acc Hnd') as [d [Hd Hget]]. exists d. split; [exact Hd |].
      intros name. rewrite Hget.
      destruct (String.eqb n name) eqn:E.
      * rewrite (Hrest name E), Elen. reflexivity.
      * reflexivity.
    + rewrite dictSet_nonempty.
      destruct (IH (dictSet acc n (statsEntryOf root configClip magThreshold hasError
                                                forcedMean data)) Hnd')
        as [d [Hd Hget]].
      exists d. split; [exact Hd |].
      intros name. rewrite Hget, dictGet_dictSet.
      destruct (String.eqb n name) eqn:E.
      * rewrite (Hrest name E), Elen. reflexivity.
      * reflexivity.
Qed.

(** X10: [Analysis.stats] always returns a dictionary — the branch that
    would return [None] is never taken — and the dictionary has an entry for a
    data set exactly when the data set has at least one good object; the entry
    is [calculateStats] of the data set's quantities under the mask
    [mag < magThreshold]. *)
Theorem Analysis_stats_entries
        (root : (float -> float) -> float -> float -> OptimizeResult)
        (configClip magThreshold : float) (self : Analysis) (forcedMean : option float) :
  NoDup (map fst (aData self)) ->
  exists d,
    Analysis_stats root configClip magThreshold self forcedMean = inr (Some d) /\
    forall name,
      dictGet d name =
      match dictGet (aData self) name with
      | Some data =>
          if Nat.eqb (length (dMag data)) 0 then None
          else Some (statsEntryOf root configClip magThreshold
                                  (match aQuantityError self with
                                   | Some _ => true
                                   | None => false
                                   end) forcedMean data)
      | None => None
      end.
Proof.
  intros Hnd. unfold Analysis_stats.
  destruct (statsLoop_entries root configClip magThreshold
              (match aQuantityError self with Some _ => true | None => false end)
              forcedMean (aData self) [] Hnd) as [d [Hd Hget]].
  exists d. split; [exact Hd |].
  intros name. rewrite Hget. simpl.
  destruct (dictGet (aData self) name) as [data |]; [| reflexivity].
  destruct (Nat.eqb (length (dMag data)) 0); reflexivity.
Qed.

Lemma Analysis_stats_entries_witness :
  let a := Analysis_init (fun f => f) [1; 2; 3; 4]%float None
                         [1; 1; 1; 1]%float [] [] (StarGalaxyLabeller [0; 0; 0; 0]%float)
                         Labels.StarGalaxyLabeller_labels in
  NoDup (map fst (aData a)) /\
  exists d,
    Analysis_stats rootNever 4 21 a None = inr (Some d) /\
    dictGet d Labels.galaxy = None /\
    dictGet d Labels.star
    = Some (mkStatsEntry
              (calculateStats 4 [1; 2; 3; 4]%float [true; true; true; true] None) None).
Proof.
  intros a.
  assert (Hnd : NoDup (map fst (aData a))).
  { vm_compute. constructor.
    - intros [E | []]. discriminate.
    - constructor; [intros [] | constructor]. }
  split; [exact Hnd |].
  destruct (@Analysis_stats_entries rootNever 4 21 a None Hnd) as [d [Hd Hget]].
  exists d. split; [exact Hd |].
  split; rewrite Hget; vm_compute; reflexivity.
Defined.

Lemma dictGet_map {V W : Type} (f : V -> W) (d : list (String.string * V))
      (key : String.string) :
  dictGet (map (fun kv => (fst kv, f (snd kv))) d) key
  = option_map f (dictGet d key).
Proof.
  induction d as [| [k w] d IH]; simpl; [reflexivity |].
  destruct (String.eqb k key); [reflexivity | exact IH].
Qed.

Lemma enforceLabel_exn (greater raising : bool) (stats : list (String.string * Stats))
      (label : String.string) (limits : list (StatAttr * float)) (log log' : list warning)
      (e : enforcerExn) :
  enforceLabel greater raising stats label limits log = (log', Some e) ->
  match e with
  | KeyError l => dictGet stats l = None
  | AssertionError _ => raising = true
  end.
Proof.
  revert log. induction limits as [| [ss limit] rest IH]; intros log; simpl.
  - discriminate.
  - destruct (dictGet stats label) as [s |] eqn:Hget.
    + destruct (if greater then _ else _).
      * destruct raising.
        -- intros H. inversion H; subst. reflexivity.
        -- apply IH.
      * apply IH.
    + intros H. inversion H; subst. exact Hget.
Qed.

Lemma enforceAll_exn (greater raising : bool) (stats : list (String.string * Stats))
      (limits : list (String.string * list (StatAttr * float))) (log log' : list warning)
      (e : enforcerExn) :
  enforceAll greater raising stats limits log = (log', Some e) ->
  match e with
  | KeyError l => dictGet stats l = None
  | AssertionError _ => raising = true
  end.
Proof.
  revert log. induction limits as [| [label ls] rest IH]; intros log; simpl.
  - discriminate.
  - destruct (enforceLabel greater raising stats label ls log) as [log1 [e1 |]] eqn:El.
    + intros H. inversion H; subst. exact (enforceLabel_exn _ _ _ _ _ _ El).
    + apply IH.
Qed.

(** A label that has a limit and no statistics keeps the loop from running
    to its end. *)
Lemma enforceAll_missing (greater raising : bool) (stats : list (String.string * Stats))
      (limits : list (String.string * list (StatAttr * float))) (log : list warning)
      (label : String.string) (ls : list (StatAttr * float)) :
  In (label, ls) limits -> ls <> [] -> dictGet stats label = None ->
  snd (enforceAll greater raising stats limits log) <> None.
Proof.
  intros Hin Hne Hget. revert log.
  induction limits as [| [l0 ls0] rest IH]; intros log; simpl; [contradiction |].
  destruct (enforceLabel greater raising stats l0 ls0 log) as [log1 [e1 |]] eqn:El.
  - discriminate.
  - destruct Hin as [E | Hin].
    + inversion E; subst l0 ls0.
      destruct ls as [| [ss limit] rest']; [contradiction |].
      simpl in El. rewrite Hget in El. discriminate.
    + apply (IH Hin).
Qed.

(** X11: the enforcer on the statistics of an empty data set. When a data
    set has no good object, [Analysis.stats] has no entry for it, and an
    enforcer with a limit on that data set, in [requireGreater] or in
    [requireLess] and among any other limits, never returns normally from
    these statistics: it ends in a [KeyError] on a label the statistics lack
    or, only when [doRaise] is set, in the [AssertionError] of a limit that was
    violated before the lookup. *)
Theorem Enforcer_on_empty_dataset
        (root : (float -> float) -> float -> float -> OptimizeResult)
        (configClip magThreshold : float) (self : Analysis) (forcedMean : option float)
        (enforcer : Enforcer) (label : String.string) (data : Data)
        (limits : list (StatAttr * float))
        (d : list (String.string * StatsEntry)) :
  NoDup (map fst (aData self)) ->
  dictGet (aData self) label = Some data ->
  dMag data = [] ->
  Analysis_stats root configClip magThreshold self forcedMean = inr (Some d) ->
  limits <> [] ->
  In (label, limits) (requireGreater enforcer)
  \/ In (label, limits) (requireLess enforcer) ->
  let stats := map (fun kv => (fst kv, seStats (snd kv))) d in
  dictGet stats label = None /\
  exists e,
    snd (Enforcer_call enforcer stats) = Some e /\
    match e with
    | KeyError l => dictGet stats l = None
    | AssertionError _ => doRaise enforcer = true
    end.
Proof.
  intros Hnd Hdata Hmag Hstats Hne Hin stats.
  destruct (statsLoop_entries root configClip magThreshold
              (match aQuantityError self with Some _ => true | None => false end)
              forcedMean (aData self) [] Hnd) as [d' [Hd' Hget]].
  unfold Analysis_stats in Hstats.
  rewrite Hstats in Hd'. inversion Hd'; subst d'.
  specialize (Hget label). rewrite Hdata, Hmag in Hget. simpl in Hget.
  assert (Hnone : dictGet stats label = None).
  { unfold stats. rewrite (dictGet_map seStats d label), Hget. reflexivity. }
  split; [exact Hnone |].
  unfold Enforcer_call.
  destruct (enforceAll true (doRaise enforcer) stats (requireGreater enforcer) [])
    as [log1 [e1 |]] eqn:Eg.
  - exists e1. split; [reflexivity |]. exact (enforceAll_exn _ _ _ _ _ Eg).
  - destruct Hin as [Hin | Hin].
    + exfalso.
      apply (@enforceAll_missing true (doRaise enforcer) stats (requireGreater enforcer)
               [] label limits Hin Hne Hnone).
      rewrite Eg. reflexivity.
    + destruct (enforceAll false (doRaise enforcer) stats (requireLess enforcer) log1)
        as [log2 [e2 |]] eqn:El.
      * exists e2. split; [reflexivity |]. exact (enforceAll_exn _ _ _ _ _ El).
      * exfalso.
        apply (@enforceAll_missing false (doRaise enforcer) stats (requireLess enforcer)
                 log1 label limits Hin Hne Hnone).
        rewrite El. reflexivity.
Qed.

Lemma Enforcer_on_empty_dataset_witness :
  let a := Analysis_init (fun f => f) [1; 2; 3; 4]%float None
                         [1; 1; 1; 1]%float [] [] (StarGalaxyLabeller [1; 1; 1; 1]%float)
                         Labels.StarGalaxyLabeller_labels in
  let d := [(Labels.galaxy,
             mkStatsEntry (calculateStats 4 [1; 2; 3; 4]%float [true; true; true; true] None)
                          None)] in
  let enforcer := mkEnforcer [(Labels.star, [(AttrMean, (-1)%float)])]
                             [(Labels.galaxy, [(AttrStdev, 0.02%float)])] true in
  let stats := map (fun kv => (fst kv, seStats (snd kv))) d in
  NoDup (map fst (aData a)) /\
  dictGet (aData a) Labels.star = Some (mkData [] [] [false; false; false; false] None) /\
  Analysis_stats rootNever 4 21 a None = inr (Some d) /\
  dictGet stats Labels.star = None /\
  exists e,
    snd (Enforcer_call enforcer stats) = Some e /\
    match e with
    | KeyError l => dictGet stats l = None
    | AssertionError _ => doRaise enforcer = true
    end.
Proof.
  intros a d enforcer stats.
  assert (Hnd : NoDup (map fst (aData a))).
  { vm_compute. constructor.
    - intros [E | []]. discriminate.
    - constructor; [intros [] | constructor]. }
  assert (Hdata : dictGet (aData a) Labels.star
                  = Some (mkData [] [] [false; false; false; false] None))
    by (vm_compute; reflexivity).
  assert (Hstats : Analysis_stats rootNever 4 21 a None = inr (Some d))
    by (vm_compute; reflexivity).
  split; [exact Hnd |]. split; [exact Hdata |]. split; [exact Hstats |].
  refine (@Enforcer_on_empty_dataset rootNever 4 21 a None enforcer Labels.star _
            [(AttrMean, (-1)%float)] d Hnd Hdata eq_refl Hstats _ _).
  - discriminate.
  - left. left. reflexivity.
Defined.

(** ** The labellers *)

Lemma zipWith_comm {A C : Type} (f : A -> A -> C) (a b : list A) :
  (forall x y, f x y = f y x) -> zipWith f a b = zipWith f b a.
Proof.
  intros Hf. revert b; induction a as [| x a IH]; intros [| y b]; simpl;
    try reflexivity.
  rewrite Hf, IH. reflexivity.
Qed.

Lemma StarGalaxyLabeller_nth (ext : list float) (i : nat) :
  i < length ext ->
  nth i (StarGalaxyLabeller ext) 0%Z
  = if (nth i ext 0 <? 0.5)%float then 0%Z else 1%Z.
Proof.
  intros Hi. unfold StarGalaxyLabeller.
  rewrite (nth_indep _ 0%Z (if (0 <? 0.5)%float then 0%Z else 1%Z))
    by (rewrite length_map; exact Hi).
  apply (map_nth (fun v => if (v <? 0.5)%float then 0%Z else 1%Z)).
Qed.

(** X12: the overlap labeller gives an object the label 2 ("split") exactly
    when its two classifications differ, and their common classification
    otherwise; the labels do not depend on which catalog is called first and
    which second. *)
Theorem OverlapsStarGalaxyLabeller_split (ext1 ext2 : list float) :
  OverlapsStarGalaxyLabeller ext1 ext2 = OverlapsStarGalaxyLabeller ext2 ext1 /\
  length (OverlapsStarGalaxyLabeller ext1 ext2) = Nat.min (length ext1) (length ext2) /\
  forall i, i < length ext1 -> i < length ext2 ->
    let star1 := (nth i ext1 0 <? 0.5)%float in
    let star2 := (nth i ext2 0 <? 0.5)%float in
    nth i (OverlapsStarGalaxyLabeller ext1 ext2) 0%Z
    = if Bool.eqb star1 star2 then (if star1 then 0%Z else 1%Z) else 2%Z.
Proof.
  unfold OverlapsStarGalaxyLabeller. split; [| split].
  - apply zipWith_comm. intros x y.
    destruct (Z.eqb_spec x y) as [-> | Hne].
    + rewrite Z.eqb_refl. reflexivity.
    + destruct (Z.eqb_spec y x) as [E | _]; [congruence | reflexivity].
  - rewrite zipWith_length. unfold StarGalaxyLabeller. rewrite !length_map. reflexivity.
  - intros i H1 H2.
    rewrite (@zipWith_nth _ _ _ _ (StarGalaxyLabeller ext1) (StarGalaxyLabeller ext2)
               i 0%Z 0%Z 0%Z)
      by (unfold StarGalaxyLabeller; rewrite length_map; assumption).
    rewrite !StarGalaxyLabeller_nth by assumption.
    destruct (nth i ext1 0 <? 0.5)%float, (nth i ext2 0 <? 0.5)%float; reflexivity.
Qed.

(** X13: the star/galaxy labeller splits the good objects between its two
    data sets and loses none: the sizes of the "star" and of the "galaxy" data
    set add up to the number of good objects. An object whose extendedness is
    NaN goes to "galaxy". *)
Theorem StarGalaxyLabeller_partition (good : list bool) (ext : list float) :
  length ext = length good ->
  maskSum (maskAnd good (labelIs (StarGalaxyLabeller ext) 0))
  + maskSum (maskAnd good (labelIs (StarGalaxyLabeller ext) 1))
  = maskSum good
  /\
  forall i, i < length ext -> is_nan (nth i ext 0%float) = true ->
            nth i (StarGalaxyLabeller ext) 0%Z = 1%Z.
Proof.
  intros Hlen. split.
  - unfold maskAnd, labelIs, StarGalaxyLabeller. revert ext Hlen.
    induction good as [| g good IH]; intros [| e ext] Hlen; simpl in *;
      try discriminate; try reflexivity.
    rewrite !maskSum_cons. specialize (IH ext ltac:(lia)).
    destruct (e <? 0.5)%float, g; simpl; lia.
  - intros i Hi Hnan. rewrite StarGalaxyLabeller_nth by exact Hi.
    rewrite (is_nan_eq _ Hnan). reflexivity.
Qed.

Lemma StarGalaxyLabeller_partition_witness :
  let good := [true; true; false; true] in
  let ext := [0; 1; 0; nan]%float in
  length ext = length good /\
  maskSum (maskAnd good (labelIs (StarGalaxyLabeller ext) 0))
  + maskSum (maskAnd good (labelIs (StarGalaxyLabeller ext) 1))
  = maskSum good.
Proof.
  intros good ext. split; [reflexivity |].
  exact (proj1 (@StarGalaxyLabeller_partition good ext eq_refl)).
Defined.

(** X14: the number-of-bands labeller. An object is a "star" (0) exactly
    when its flag count reaches [numBands], "notStar" (2) exactly when the
    count is zero and below [numBands], and "maybe" (1) in between; with
    [numBands <= 0] every object is a "star", the ones without a flag too. *)
Theorem NumStarLabeller_labels_spec (numBands : Z) (numStarFlags : list Z) (i : nat) :
  i < length numStarFlags ->
  let nn := nth i numStarFlags 0%Z in
  let l := nth i (NumStarLabeller numBands numStarFlags) 0%Z in
  ((l = 0 <-> numBands <= nn) /\
   (l = 2 <-> nn < numBands /\ nn = 0) /\
   (l = 1 <-> nn < numBands /\ nn <> 0))%Z.
Proof.
  intros Hi nn l. subst l. unfold NumStarLabeller.
  rewrite (nth_indep _ 0%Z
             ((fun nn => if Z.geb nn numBands then 0%Z
                         else if Z.eqb nn 0 then 2%Z else 1%Z) 0%Z))
    by (rewrite length_map; exact Hi).
  rewrite (map_nth (fun nn => if Z.geb nn numBands then 0%Z
                              else if Z.eqb nn 0 then 2%Z else 1%Z)).
  fold nn. rewrite Z.geb_leb.
  destruct (Z.leb_spec numBands nn) as [Hle | Hlt].
  - repeat split; intros; try lia.
  - destruct (Z.eqb_spec nn 0) as [E | Hne]; repeat split; intros; try lia.
Qed.

Lemma NumStarLabeller_labels_spec_witness :
  1 < length [3; 0; 1]%Z /\
  NumStarLabeller 2 [3; 0; 1]%Z = [0; 2; 1]%Z /\
  (nth 1 (NumStarLabeller 2 [3; 0; 1]%Z) 0 = 2 <->
   nth 1 [3; 0; 1] 0 < 2 /\ nth 1 [3; 0; 1] 0 = 0)%Z.
Proof.
  split; [simpl; lia |]. split; [reflexivity |].
  exact (proj1 (proj2 (@NumStarLabeller_labels_spec 2%Z [3; 0; 1]%Z 1
                         ltac:(simpl; lia)))).
Defined.

(** ** ColorValueInFitRange *)

(** X15: an object that is not strictly between the two fit lines gets the
    value NaN, and with it drops out of every analysis of that quantity:
    [Analysis.__init__] never marks it good, whatever the magnitudes, the flags
    and the good keys. *)
Theorem ColorValueInFitRange_outside (self : ColorValueInFitRange)
        (column values : list float) (lower slope upper : float) (i : nat) :
  fitLineLowerIncpt self = Some lower ->
  fitLineSlope self = Some slope ->
  fitLineUpperIncpt self = Some upper ->
  ColorValueInFitRange_call self column = inr values ->
  i < length values ->
  let x := nth i (xColor self) 0%float in
  let y := nth i (yColor self) 0%float in
  (gtb y (lower + slope * x) && (y <? upper + slope * x))%float = false ->
  is_nan (nth i values 0%float) = true /\
  forall quantityError mag flags goodKeys,
    nth i (goodOf values quantityError mag flags goodKeys) false = false.
Proof.
  intros Hl Hs Hu Hcall Hi x y Hout.
  unfold ColorValueInFitRange_call in Hcall. rewrite Hl, Hs, Hu in Hcall.
  unfold ret in Hcall.
  assert (Hv : values = zipWith (fun g v => ((if g : bool then v else nan)
                                             * cvUnitScale self)%float)
                          (maskAnd (zipWith (fun x y => gtb y (lower + slope * x)%float)
                                            (xColor self) (yColor self))
                                   (zipWith (fun x y => (y <? upper + slope * x)%float)
                                            (xColor self) (yColor self)))
                          column) by congruence.
  clear Hcall. subst values.
  set (good1 := zipWith (fun x y => gtb y (lower + slope * x)%float)
                        (xColor self) (yColor self)) in *.
  set (good2 := zipWith (fun x y => (y <? upper + slope * x)%float)
                        (xColor self) (yColor self)) in *.
  rewrite zipWith_length in Hi.
  assert (Hlg : length (maskAnd good1 good2)
                = Nat.min (length (xColor self)) (length (yColor self))).
  { unfold maskAnd, good1, good2. rewrite !zipWith_length. lia. }
  match goal with |- is_nan (nth i ?vs _) = true /\ _ => set (vals := vs) in * end.
  assert (Hnan : is_nan (nth i vals 0%float) = true).
  { unfold vals.
    rewrite (@zipWith_nth _ _ _ _ (maskAnd good1 good2) column i false 0%float 0%float)
      by lia.
    rewrite maskAnd_nth. unfold good1, good2.
    rewrite (@zipWith_nth _ _ _ _ (xColor self) (yColor self) i 0%float 0%float false)
      by lia.
    rewrite (@zipWith_nth _ _ _ _ (xColor self) (yColor self) i 0%float 0%float false)
      by lia.
    fold x y. rewrite Hout. rewrite mul_nan_l. reflexivity. }
  split; [exact Hnan |].
  intros qe mag flags goodKeys.
  destruct (nth i (goodOf vals qe mag flags goodKeys) false) eqn:Hg; [| reflexivity].
  pose proof (proj2 (proj1 (@goodOf_finite vals qe mag flags goodKeys i Hg))) as Hf.
  rewrite (isfinite_nan_false _ Hnan) in Hf. discriminate.
Qed.

Lemma ColorValueInFitRange_outside_witness :
  let self := mkColorValueInFitRange [0.5; 0.5]%float [0.5; 3]%float
                                     (Some (-2)%float) (Some 2.4%float) (Some 0.68%float)
                                     1000 in
  ColorValueInFitRange_call self [0.01; 0.02]%float = inr [10; nan]%float /\
  is_nan (nth 1 [10; nan]%float 0%float) = true.
Proof.
  intros self.
  assert (Hcall : ColorValueInFitRange_call self [0.01; 0.02]%float = inr [10; nan]%float)
    by (vm_compute; reflexivity).
  split; [exact Hcall |].
  exact (proj1 (@ColorValueInFitRange_outside self [0.01; 0.02]%float [10; nan]%float
                  0.68%float (-2)%float 2.4%float 1 eq_refl eq_refl eq_refl Hcall
                  ltac:(simpl; lia) ltac:(vm_compute; reflexivity))).
Defined.

(** ** Labels read off a file name *)

Module PathLabelFacts.

Import Ascii String.
Local Open Scope string_scope.

Lemma length_append (a b : string) : length (a ++ b) = length a + length b.
Proof.
  induction a as [| c a IH]; simpl; [reflexivity | rewrite IH; reflexivity].
Qed.

Lemma append_assoc (a b c : string) : (a ++ b) ++ c = a ++ (b ++ c).
Proof.
  induction a as [| x a IH]; simpl; [reflexivity | rewrite IH; reflexivity].
Qed.

(** Searching past a prefix is searching in what follows it. *)
Lemma index_append (a b s : string) (n : nat) :
  index (length a + n) s (a ++ b)
  = match index n s b with
    | Some k => Some (length a + k)
    | None => None
    end.
Proof.
  induction a as [| c a IH]; simpl.
  - destruct (index n s b); reflexivity.
  - rewrite IH. destruct (index n s b); reflexivity.
Qed.

Lemma index_cons0 (s t : string) (c : Ascii.ascii) :
  index 0 s (String c t)
  = if prefix s (String c t) then Some 0
    else match index 0 s t with
         | Some n => Some (S n)
         | None => None
         end.
Proof. reflexivity. Qed.

Lemma prefix_empty (t : string) : prefix "" t = true.
Proof. destruct t; reflexivity. Qed.

(** Whether a string starts with a one-character pattern is decided by its
    first character. *)
Lemma prefix_char (a c : Ascii.ascii) (t t' : string) :
  prefix (String a "") (String c t) = prefix (String a "") (String c t').
Proof.
  change (match Ascii.ascii_dec a c with
          | left _ => prefix "" t
          | right _ => false
          end
          = match Ascii.ascii_dec a c with
            | left _ => prefix "" t'
            | right _ => false
            end).
  destruct (Ascii.ascii_dec a c); [rewrite !prefix_empty |]; reflexivity.
Qed.

(** The first slash of [f/rest] when [f] has none. *)
Lemma index_slash (f rest : string) :
  index 0 "/" f = None -> index 0 "/" (f ++ "/" ++ rest) = Some (length f).
Proof.
  induction f as [| c f IH]; intros H.
  - change (index 0 "/" (String "/"%char rest) = Some 0).
    rewrite index_cons0.
    rewrite (prefix_char "/"%char "/"%char rest ""). reflexivity.
  - change (index 0 "/" (String c (f ++ "/" ++ rest)) = Some (S (length f))).
    rewrite index_cons0 in H. rewrite index_cons0.
    rewrite (prefix_char "/"%char c (f ++ "/" ++ rest) f).
    destruct (prefix "/" (String c f)); [discriminate |].
    destruct (index 0 "/" f) as [k |] eqn:Ef; [discriminate |].
    rewrite IH by reflexivity. reflexivity.
Qed.

(** No slash at all in [f]: searching from any position finds none. *)
Lemma index_none_from (f s : string) (n : nat) :
  index 0 s f = None -> s <> "" -> index n s f = None.
Proof.
  revert n. induction f as [| c f IH]; intros n H Hs.
  - destruct n; [exact H | reflexivity].
  - destruct n as [| n]; [exact H |].
    rewrite index_cons0 in H.
    destruct (prefix s (String c f)); [discriminate |].
    destruct (index 0 s f) as [k |] eqn:E; [discriminate |].
    change (match index n s f with
            | Some k => Some (S k)
            | None => None
            end = None).
    rewrite (IH n eq_refl Hs). reflexivity.
Qed.

Lemma substring_skip (a b : string) (m : nat) :
  substring (length a) m (a ++ b) = substring 0 m b.
Proof.
  induction a as [| c a IH]; simpl; [reflexivity | exact IH].
Qed.

Lemma substring_prefix (f r : string) : substring 0 (length f) (f ++ r) = f.
Proof.
  induction f as [| c f IH]; simpl.
  - destruct r; reflexivity.
  - rewrite IH. reflexivity.
Qed.

(** The field that follows a marker, when the marker's first occurrence is
    where the field starts and the field runs up to a slash. *)
Lemma fieldAfter_found (pre marker field rest : string) :
  index 0 marker (pre ++ marker ++ field ++ "/" ++ rest) = Some (length pre) ->
  index 0 "/" field = None ->
  PathLabel.fieldAfter (pre ++ marker ++ field ++ "/" ++ rest) marker = field.
Proof.
  intros Hm Hf. unfold PathLabel.fieldAfter, PathLabel.find. rewrite Hm.
  set (s := pre ++ marker ++ field ++ "/" ++ rest).
  assert (Es : s = (pre ++ marker) ++ (field ++ "/" ++ rest))
    by (unfold s; rewrite append_assoc; reflexivity).
  rewrite <- Nat2Z.inj_add, Nat2Z.id.
  assert (Hi2 : index (length pre + length marker) "/" s
                = Some (length pre + length marker + length field)).
  { rewrite Es.
    replace (length pre + length marker) with (length (pre ++ marker) + 0)
      by (rewrite length_append; lia).
    rewrite index_append, (index_slash field rest Hf).
    rewrite length_append. f_equal. lia. }
  rewrite Hi2. unfold PathLabel.slice.
  assert (Hlen : length s = length pre + length marker + length field + S (length rest)).
  { rewrite Es, !length_append. simpl. lia. }
  rewrite Hlen.
  destruct (Z.ltb_spec (Z.of_nat (length pre + length marker)) 0) as [Hneg | _]; [lia |].
  destruct (Z.ltb_spec (Z.of_nat (length pre + length marker + length field)) 0)
    as [Hneg | _]; [lia |].
  rewrite !Z.min_l by lia.
  rewrite Nat2Z.id.
  replace (Z.to_nat (Z.of_nat (length pre + length marker + length field)
                     - Z.of_nat (length pre + length marker)))
    with (length field) by lia.
  rewrite Es.
  replace (length pre + length marker) with (length (pre ++ marker))
    by (rewrite length_append; reflexivity).
  rewrite substring_skip. apply substring_prefix.
Qed.

(** X16: the filter is read back from a plot path. For a path
    [<pre>plots/<filter>/<rest>] in which that [plots/] is the first one and
    the filter holds no slash, [filterStrFromFilename] returns the filter. *)
Theorem filterStrFromFilename_roundtrip (pre filt rest : string) :
  index 0 "plots/" (pre ++ "plots/" ++ filt ++ "/" ++ rest) = Some (length pre) ->
  index 0 "/" filt = None ->
  PathLabel.filterStrFromFilename (pre ++ "plots/" ++ filt ++ "/" ++ rest) = filt.
Proof.
  intros Hp Hf. exact (fieldAfter_found pre "plots/" filt rest Hp Hf).
Qed.

Lemma filterStrFromFilename_roundtrip_witness :
  index 0 "plots/" ("/data/rerun/" ++ "plots/" ++ "HSC-I" ++ "/" ++ "tract-9813/x.png")
  = Some (length "/data/rerun/") /\
  index 0 "/" "HSC-I" = None /\
  PathLabel.filterStrFromFilename "/data/rerun/plots/HSC-I/tract-9813/x.png" = "HSC-I".
Proof.
  split; [reflexivity |]. split; [reflexivity |].
  exact (@filterStrFromFilename_roundtrip "/data/rerun/" "HSC-I" "tract-9813/x.png"
           eq_refl eq_refl).
Defined.

(** X17: [labelVisit] of plotUtils.py fails on a visit without a tract. It
    raises [TypeError] exactly when the file name holds [visit-] and no
    [tract-]; it draws nothing exactly when the name holds neither. *)
Theorem labelVisit_TypeError (filename : string) :
  (PathLabel.labelVisit filename = inl TypeError <->
   index 0 "visit-" filename <> None /\ index 0 "tract-" filename = None)
  /\
  (PathLabel.labelVisit filename = inr None <->
   index 0 "visit-" filename = None /\ index 0 "tract-" filename = None).
Proof.
  unfold PathLabel.labelVisit, PathLabel.find.
  destruct (index 0 "tract-" filename) as [t |] eqn:Et;
    destruct (index 0 "visit-" filename) as [v |] eqn:Ev;
    repeat match goal with
           | |- context [(0 <=? Z.of_nat ?k)%Z] =>
               replace (0 <=? Z.of_nat k)%Z with true by (symmetry; apply Z.leb_le; lia)
           end;
    simpl; unfold ret, raise;
    intuition (try discriminate; try congruence).
Qed.

(** X18: on a path [<pre>tract-<t>/visit-<v>/<rest>], each marker occurring
    there for the first time and neither field holding a slash,
    [labelVisit] draws [tract: <t> visit: <v>]. *)
Theorem labelVisit_roundtrip (pre t v rest : string) :
  let filename := pre ++ "tract-" ++ t ++ "/" ++ "visit-" ++ v ++ "/" ++ rest in
  index 0 "tract-" filename = Some (length pre) ->
  index 0 "visit-" filename = Some (length (pre ++ "tract-" ++ t ++ "/")) ->
  index 0 "/" t = None ->
  index 0 "/" v = None ->
  PathLabel.labelVisit filename = inr (Some ("tract: " ++ t ++ " visit: " ++ v)).
Proof.
  intros filename Ht Hv Hst Hsv.
  assert (Ft : PathLabel.fieldAfter filename "tract-" = t).
  { exact (fieldAfter_found pre "tract-" t ("visit-" ++ v ++ "/" ++ rest) Ht Hst). }
  assert (Ef : filename = (pre ++ "tract-" ++ t ++ "/") ++ "visit-" ++ v ++ "/" ++ rest).
  { unfold filename. rewrite !append_assoc. reflexivity. }
  assert (Fv : PathLabel.fieldAfter filename "visit-" = v).
  { rewrite Ef. apply fieldAfter_found; [rewrite <- Ef; exact Hv | exact Hsv]. }
  unfold PathLabel.labelVisit. rewrite Ft, Fv.
  unfold PathLabel.find. rewrite Ht, Hv.
  replace (0 <=? Z.of_nat (length pre))%Z with true by (symmetry; apply Z.leb_le; lia).
  replace (0 <=? Z.of_nat (length (pre ++ "tract-" ++ t ++ "/")))%Z with true
    by (symmetry; apply Z.leb_le; lia).
  unfold ret. rewrite !append_assoc. reflexivity.
Qed.

Lemma labelVisit_roundtrip_witness :
  let filename := "/plots/HSC-I/" ++ "tract-" ++ "9813" ++ "/" ++ "visit-" ++ "1234"
                  ++ "/" ++ "mag.png" in
  index 0 "tract-" filename = Some (length "/plots/HSC-I/") /\
  index 0 "visit-" filename = Some (length ("/plots/HSC-I/" ++ "tract-" ++ "9813" ++ "/")) /\
  PathLabel.labelVisit filename = inr (Some "tract: 9813 visit: 1234").
Proof.
  intros filename. split; [reflexivity |]. split; [reflexivity |].
  exact (@labelVisit_roundtrip "/plots/HSC-I/" "9813" "1234" "mag.png"
           eq_refl eq_refl eq_refl eq_refl).
Defined.

(** X19: [Analysis.labelVisit] of analysis.py prefers the tract. When the
    file name holds [tract-], the text drawn starts with [tract: ], whether or
    not it also holds [visit-]; with neither marker nothing is drawn. *)
Theorem Analysis_labelVisit_tract_first (filename : string) :
  (index 0 "tract-" filename <> None ->
   PathLabel.Analysis_labelVisit filename
   = Some ("tract: " ++ PathLabel.fieldAfter filename "tract-"))
  /\
  (index 0 "tract-" filename = None -> index 0 "visit-" filename <> None ->
   PathLabel.Analysis_labelVisit filename
   = Some ("visit: " ++ PathLabel.fieldAfter filename "visit-"))
  /\
  (index 0 "tract-" filename = None -> index 0 "visit-" filename = None ->
   PathLabel.Analysis_labelVisit filename = None).
Proof.
  unfold PathLabel.Analysis_labelVisit, PathLabel.find.
  destruct (index 0 "tract-" filename) as [t |] eqn:Et;
    destruct (index 0 "visit-" filename) as [v |] eqn:Ev;
    repeat match goal with
           | |- context [(0 <=? Z.of_nat ?k)%Z] =>
               replace (0 <=? Z.of_nat k)%Z with true by (symmetry; apply Z.leb_le; lia)
           end; simpl;
    repeat split; intros; try reflexivity; try contradiction; try discriminate.
Qed.

End PathLabelFacts.

(** ** Analysis.calculateStats and NaN *)




(** ** More on the fit of colorColorPolyFitPlot *)

Lemma forEach_last {S : Type} (body : nat -> S -> result S) (P : S -> Prop) :
  (forall ii st st', body ii st = inr st' -> P st') ->
  forall iis st st', iis <> [] -> forEach body iis st = inr st' -> P st'.
Proof.
  intros Hbody iis. induction iis as [| ii iis IH]; intros st st' Hne H.
  - congruence.
  - simpl in H. unfold bind in H.
    destruct (body ii st) as [e | st1] eqn:E; [discriminate |].
    destruct iis as [| jj iis'].
    + simpl in H. inversion H; subst. exact (Hbody _ _ _ E).
    + apply (IH st1 st'); [discriminate | exact H].
Qed.




Lemma maskAnd_length_le (m1 m2 : list bool) :
  length (maskAnd m1 m2) <= length m1 /\ length (maskAnd m1 m2) <= length m2.
Proof. unfold maskAnd. rewrite zipWith_length. lia. Qed.

Lemma andAll_length_le (sels : list (list bool)) (m : list bool) :
  length (andAll m sels) <= length m.
Proof.
  unfold andAll. revert m. induction sels as [| s sels IH]; intros m; simpl; [lia |].
  specialize (IH (maskAnd m s)). pose proof (maskAnd_length_le m s). lia.
Qed.








Lemma odr_clipped_length (dy : list float) (clip : float) (xx yy : list float) :
  length (maskAnd (maskAnd (clipMask dy clip) (map isfinite xx)) (map isfinite yy))
  <= length xx.
Proof.
  pose proof (maskAnd_length_le (maskAnd (clipMask dy clip) (map isfinite xx))
                                (map isfinite yy)) as [H1 _].
  pose proof (maskAnd_length_le (clipMask dy clip) (map isfinite xx)) as [_ H2].
  assert (H3 : length (map isfinite xx) = length xx) by apply length_map.
  lia.
Qed.

Lemma odrRound_returns (odr : list float -> list float -> nat -> list float -> list float)
      (xx yy : list float) (order : nat) (rej : float) (region : FitRegion)
      (ii : nat) (st st' : OdrState) :
  odrRound odr xx yy order rej region ii st = inr st' ->
  order <= maskSum (keepOdr st') /\ length (keepOdr st') <= length xx.
Proof.
  intros H.
  destruct (clipOf rej (residuals (orthRegCoeffs st) xx yy) (keepOdr st))
    as [e | clip] eqn:Ec.
  - unfold odrRound, bind in H. rewrite Ec in H. discriminate.
  - pose proof (@odrRound_check odr xx yy order rej region ii st clip Ec) as Hchk.
    cbv zeta in Hchk.
    remember (maskAnd (maskAnd (clipMask (residuals (orthRegCoeffs st) xx yy) clip)
                               (map isfinite xx)) (map isfinite yy)) as clipped eqn:Eclipped.
    remember (if Nat.eqb ii 0 then andAll clipped (paddedMasks region xx yy) else clipped)
      as kept eqn:Ekept.
    destruct Hchk as [Hlt Hge].
    destruct (Nat.lt_ge_cases (maskSum kept) order) as [Hl | Hg].
    + rewrite (Hlt Hl) in H. discriminate.
    + rewrite (Hge Hg) in H.
      assert (Hk : keepOdr st' = kept) by (injection H as <-; reflexivity).
      rewrite Hk. split; [exact Hg |].
      assert (Hc : length clipped <= length xx).
      { rewrite Eclipped. apply odr_clipped_length. }
      rewrite Ekept. destruct (Nat.eqb ii 0); [| exact Hc].
      pose proof (andAll_length_le (paddedMasks region xx yy) clipped). lia.
Qed.

Lemma odrRound_enough (odr : list float -> list float -> nat -> list float -> list float)
      (xx yy : list float) (order : nat) (rej : float) (region : FitRegion)
      (ii : nat) (st st' : OdrState) :
  odrRound odr xx yy order rej region ii st = inr st' ->
  order <= maskSum (keepOdr st').
Proof.
  intros H. exact (proj1 (odrRound_returns _ _ _ _ _ _ _ _ H)).
Qed.





(** X20: whichever strategy is used, the [keep] mask of the initial fit only
    holds points of the first-iteration fit region of the finite points (the
    x range, the y range and the two bounding lines): neither the clipping
    nor the padded ranges of the later iterations admit a point that region
    excludes. *)
Theorem colorColorPolyFitPlot_keepInitial_in_region
      (lstsq : list float -> list float -> nat -> list float)
      (odr : list float -> list float -> nat -> list float -> list float)
      (xx yy : list float) (order iterations : nat) (rej : float)
      (region : FitRegion) (closeToVertical : bool) (fit : LocusFit) :
  colorColorPolyFitPlot lstsq odr xx yy order iterations rej region closeToVertical
  = inr fit ->
  let good := maskAnd (map isfinite xx) (map isfinite yy) in
  let xx1 := boolIndex xx good in
  let yy1 := boolIndex yy good in
  maskSubset (keepInitial fit) (andAll (onesLike xx1) (regionMasks region xx1 yy1)).
Proof.
  intros H good xx1 yy1. unfold colorColorPolyFitPlot in H.
  fold good in H. fold xx1 in H. fold yy1 in H. unfold bind in H.
  destruct (initialFit lstsq xx1 yy1 order iterations rej region closeToVertical)
    as [e | [p k]] eqn:Einit; [discriminate |].
  simpl fst in H; simpl snd in H.
  destruct (odrRefine odr xx1 yy1 order iterations rej region p k) as [e | st];
    [discriminate |].
  inversion H; subst fit; simpl keepInitial.
  destruct closeToVertical.
  - unfold initialFit in Einit.
    destruct (xFitRange region) as [[a b] |]; [| discriminate].
    inversion Einit; subst.
    exact (@maskAnd_subset_r (onesLike xx1) (andAll (onesLike xx1) (regionMasks region xx1 yy1))).
  - exact (@initialFit_keep_in_region lstsq xx1 yy1 order iterations rej region p k Einit).
Qed.

Lemma colorColorPolyFitPlot_keepInitial_in_region_witness :
  let xx := [0; 4; 4.25; 4.5; 4.75; 5; 5.25; 5.5; 5.75; 6; 10]%float in
  let yy := [0; 0.5; 0; 0.5; 0; 0.5; 0; 0.5; 0; 0.5; 110]%float in
  let region := mkFitRegion (Some (3.5, 6.5)%float) None None None in
  exists fit,
    colorColorPolyFitPlot lstsqNormal odrKeepSeed xx yy 1 2 3 region false = inr fit
    /\ maskSubset (keepInitial fit)
         [false; true; true; true; true; true; true; true; true; true; false].
Proof.
  intros xx yy region.
  destruct (colorColorPolyFitPlot lstsqNormal odrKeepSeed xx yy 1 2 3 region false)
    as [e | fit] eqn:E.
  - vm_compute in E. discriminate.
  - exists fit. split; [reflexivity |].
    exact (@colorColorPolyFitPlot_keepInitial_in_region lstsqNormal odrKeepSeed
             xx yy 1 2 3 region false fit E).
Defined.



(** X22: a fit that returns has enough points. Outside the near-vertical
    strategy the initial [keep] mask holds at least [order] points, and with
    two iterations or more (so that the refinement loop runs at least once)
    so does the final [keepOdr] mask, in either strategy. *)
Theorem colorColorPolyFitPlot_enough_points
      (lstsq : list float -> list float -> nat -> list float)
      (odr : list float -> list float -> nat -> list float -> list float)
      (xx yy : list float) (order iterations : nat) (rej : float)
      (region : FitRegion) (closeToVertical : bool) (fit : LocusFit) :
  colorColorPolyFitPlot lstsq odr xx yy order iterations rej region closeToVertical
  = inr fit ->
  (closeToVertical = false -> order <= maskSum (keepInitial fit))
  /\ (2 <= iterations -> order <= maskSum (keepOdr (refined fit)))
  /\ (iterations <= 1 -> keepOdr (refined fit) = keepInitial fit).
Proof.
  unfold colorColorPolyFitPlot.
  set (xx1 := boolIndex xx _). set (yy1 := boolIndex yy _). unfold bind.
  destruct (initialFit lstsq xx1 yy1 order iterations rej region closeToVertical)
    as [e | [p k]] eqn:Einit; [discriminate |].
  simpl fst; simpl snd.
  destruct (odrRefine odr xx1 yy1 order iterations rej region p k) as [e | st] eqn:Eodr;
    [discriminate |].
  intros H. inversion H; subst fit; simpl. clear H.
  split; [| split].
  - intros ->. rewrite initialFit_standard in Einit. unfold bind in Einit.
    destruct (forEach _ _ _) as [e | ks]; [discriminate |].
    destruct (Nat.eqb iterations 0); [discriminate |].
    destruct (Nat.ltb_spec (maskSum (maskAnd (keep ks) (select ks))) order) as [Hlt | Hge];
      [discriminate |].
    destruct (np_polyfit lstsq _ _ order) as [e | q]; [discriminate |].
    inversion Einit; subst. exact Hge.
  - intros Hit. unfold odrRefine in Eodr.
    apply (forEach_last _ (fun s => order <= maskSum (keepOdr s))) in Eodr.
    + exact Eodr.
    + intros ii s s'. apply odrRound_enough.
    + destruct iterations as [| [| n]]; [lia | lia |]. simpl. discriminate.
  - intros Hit. unfold odrRefine in Eodr.
    replace (iterations - 1) with 0 in Eodr by lia.
    simpl in Eodr. inversion Eodr; subst. reflexivity.
Qed.

Lemma colorColorPolyFitPlot_enough_points_witness :
  let xx := [0; 4; 4.25; 4.5; 4.75; 5; 5.25; 5.5; 5.75; 6; 10]%float in
  let yy := [0; 0.5; 0; 0.5; 0; 0.5; 0; 0.5; 0; 0.5; 110]%float in
  let region := mkFitRegion (Some (3.5, 6.5)%float) None None None in
  exists fit,
    colorColorPolyFitPlot lstsqNormal odrKeepSeed xx yy 1 3 3 region false = inr fit
    /\ 1 <= maskSum (keepInitial fit)
    /\ 1 <= maskSum (keepOdr (refined fit)).
Proof.
  intros xx yy region.
  destruct (colorColorPolyFitPlot lstsqNormal odrKeepSeed xx yy 1 3 3 region false)
    as [e | fit] eqn:E.
  - vm_compute in E. discriminate.
  - exists fit. split; [reflexivity |].
    destruct (@colorColorPolyFitPlot_enough_points lstsqNormal odrKeepSeed
                xx yy 1 3 3 region false fit E) as [H1 [H2 _]].
    split; [exact (H1 eq_refl) | apply H2; lia].
Defined.


(** ** More on ColorColorDistance.__call__ *)

Lemma mapM_const {A B : Type} (f : A -> result B) (b : B) (l : list A) :
  (forall a, In a l -> f a = inr b) -> mapM f l = inr (repeat b (length l)).
Proof.
  induction l as [| a l IH]; intros H; simpl.
  - reflexivity.
  - unfold bind. rewrite (H a (or_introl eq_refl)).
    rewrite (IH (fun a' Hin => H a' (or_intror Hin))). reflexivity.
Qed.

Lemma zipWith_nan_distance {A : Type} (sign : A -> float) (scale : float) (l : list A) :
  zipWith (fun d2 a => (sqrt d2 * sign a * scale)%float) (repeat nan (length l)) l
  = repeat nan (length l).
Proof.
  induction l as [| a l IH]; simpl; [reflexivity |].
  rewrite nan_distance. f_equal. exact IH.
Qed.

(** X24: when every point of the catalog is excluded (a non-finite colour,
    an x outside [xMin, xMax], or a point beyond a bounding line),
    [ColorColorDistance.__call__] returns an array of NaN with one entry per
    point, whatever the polynomial, and whatever the eigenvalue routine and
    the distance helper would do: neither is reached. *)
Theorem ccdCall_all_excluded
      (eigvals : list float -> result (list complex))
      (dist2 : float -> float -> float -> list float -> float)
      (self : ColorColorDistance) (b1 b2 b3 : list float) :
  let xx := zipWith PrimFloat.sub b1 b2 in
  let yy := zipWith PrimFloat.sub b2 b3 in
  (forall x y, In (x, y) (combine xx yy) -> excluded self x y = true) ->
  ccdCall eigvals dist2 self b1 b2 b3 = inr (repeat nan (length (combine xx yy))).
Proof.
  intros xx yy Hex. unfold ccdCall. fold xx. fold yy. unfold bind.
  rewrite (@mapM_const _ _
             (fun xy => pointDistance2 eigvals dist2 self (np_polyder (ccdPoly self))
                                       (fst xy) (snd xy))
             nan (combine xx yy)).
  - unfold ret. f_equal.
    exact (@zipWith_nan_distance _
             (fun xy => if (np_polyval (ccdPoly self) (fst xy) <=? snd xy)%float
                        then 1%float else (-1)%float)
             (unitScale self) (combine xx yy)).
  - intros [x y] Hin. unfold pointDistance2. simpl fst; simpl snd.
    rewrite (Hex x y Hin). reflexivity.
Qed.

Lemma ccdCall_all_excluded_witness :
  let self := ColorColorDistance_init [1; 0; 0]%float 1000 (Some 5%float) None None None in
  let b1 := [nan; 1; 7]%float in
  let b2 := [0; 0; infinity]%float in
  let b3 := [0; 0; 0]%float in
  forallb (fun xy => excluded self (fst xy) (snd xy))
          (combine (zipWith PrimFloat.sub b1 b2) (zipWith PrimFloat.sub b2 b3)) = true
  /\ ccdCall eigvalsUnit distanceSquaredToPoly self b1 b2 b3 = inr [nan; nan; nan].
Proof.
  intros self b1 b2 b3.
  assert (H : forallb (fun xy => excluded self (fst xy) (snd xy))
                (combine (zipWith PrimFloat.sub b1 b2) (zipWith PrimFloat.sub b2 b3)) = true)
    by (vm_compute; reflexivity).
  split; [exact H |].
  refine (@ccdCall_all_excluded eigvalsUnit distanceSquaredToPoly self b1 b2 b3 _).
  intros x y Hin.
  exact (proj1 (forallb_forall _ _) H (x, y) Hin).
Defined.

(** ** ColorValueInPerpRange *)

Module PerpRangeFacts.

Import PerpRange.

Lemma dictGet_Forall {V : Type} (P : V -> Prop) (d : list (String.string * V))
      (key : String.string) (v : V) :
  Forall (fun kv => P (snd kv)) d -> dictGet d key = Some v -> P v.
Proof.
  induction d as [| [k w] d IH]; simpl; intros HF H; [discriminate |].
  inversion HF; subst.
  destruct (String.eqb k key).
  - inversion H; subst. assumption.
  - auto.
Qed.

Lemma nth_repeat_true (n i : nat) : i < n -> nth i (repeat true n) false = true.
Proof.
  revert i; induction n as [| n IH]; intros [| i] H; simpl; try lia; auto.
  apply IH; lia.
Qed.

Lemma nth_map_lt {A B : Type} (f : A -> B) (l : list A) (i : nat) (da : A) (db : B) :
  i < length l -> nth i (map f l) db = f (nth i l da).
Proof.
  revert i; induction l as [| a l IH]; intros [| i] H; simpl in *; try lia; auto.
  apply IH; lia.
Qed.

Lemma maskAnd_length (m1 m2 : list bool) :
  length (maskAnd m1 m2) = Nat.min (length m1) (length m2).
Proof. unfold maskAnd. apply zipWith_length. Qed.

Lemma limitLoop_pointwise (cmp : float -> float -> bool) (cat : catalog) (n : nat)
      (limits : list (String.string * float)) :
  Forall (fun kv => length (snd kv) = n) cat ->
  forall good good',
    length good = n ->
    limitLoop cmp cat limits good = inr good' ->
    length good' = n /\
    forall i, i < n ->
      nth i good' false = nth i good false && passes cmp cat limits i.
Proof.
  intros Hcat. induction limits as [| [col value] rest IH]; intros good good' Hlen H.
  - simpl in H. inversion H; subst good'. split; [assumption |].
    intros i Hi. simpl. rewrite andb_true_r. reflexivity.
  - simpl in H.
    destruct (dictGet cat col) as [vals |] eqn:Eget; [| discriminate].
    assert (Hvals : length vals = n).
    { exact (@dictGet_Forall _ (fun l => length l = n) cat col vals Hcat Eget). }
    apply IH in H.
    + destruct H as [Hl Hp]. split; [assumption |].
      intros i Hi. rewrite (Hp i Hi). rewrite maskAnd_nth.
      rewrite (@nth_map_lt _ _ (fun v => cmp v value) vals i nan false) by lia.
      unfold passes. simpl. rewrite Eget. rewrite andb_assoc. reflexivity.
    + rewrite maskAnd_length, length_map. lia.
Qed.

Lemma limitLoop_returns (cmp : float -> float -> bool) (cat : catalog)
      (limits : list (String.string * float)) (good : list bool) :
  (exists good', limitLoop cmp cat limits good = inr good')
  <-> (forall c, In c (map fst limits) -> dictGet cat c <> None).
Proof.
  revert good. induction limits as [| [col value] rest IH]; intros good; simpl.
  - split; [intros _ c [] | intros _; eexists; reflexivity].
  - destruct (dictGet cat col) as [vals |] eqn:Eget.
    + rewrite IH. split.
      * intros H c [<- | Hin]; [congruence | auto].
      * intros H c Hin. auto.
    + split.
      * intros [g H]. discriminate.
      * intros H. exfalso. exact (H col (or_introl eq_refl) Eget).
Qed.

Lemma limitLoop_KeyError (cmp : float -> float -> bool) (cat : catalog)
      (limits : list (String.string * float)) (good : list bool) (c : String.string) :
  limitLoop cmp cat limits good = inl (KeyError c) ->
  In c (map fst limits) /\ dictGet cat c = None.
Proof.
  revert good. induction limits as [| [col value] rest IH]; intros good; simpl.
  - discriminate.
  - destruct (dictGet cat col) as [vals |] eqn:Eget.
    + intros H. destruct (IH _ H). auto.
    + intros H. inversion H; subst. auto.
Qed.

(** X25: the two loops of [ColorValueInPerpRange.__call__] in closed form.
    On a catalog whose columns all have [n] rows, a call that returns gives
    [n] values, and the value of row [i] is the principal colour times
    [unitScale] when the row passes every [requireGreater] and every
    [requireLess] limit, and NaN times [unitScale] otherwise; both
    comparisons are strict, and a NaN in a limit column fails them. *)
Theorem ColorValueInPerpRange_pointwise (self : ColorValueInPerpRange)
        (cat : catalog) (n : nat) (values : list float) :
  Forall (fun kv => length (snd kv) = n) cat ->
  ColorValueInPerpRange_call self cat n = inr values ->
  length values = n /\
  exists vals,
    dictGet cat (column self) = Some vals /\
    forall i, i < n ->
      nth i values nan
      = ((if passes gtb cat (requireGreater self) i
             && passes PrimFloat.ltb cat (requireLess self) i
          then nth i vals nan else nan) * unitScale self)%float.
Proof.
  intros Hcat. unfold ColorValueInPerpRange_call.
  destruct (limitLoop gtb cat (requireGreater self) (repeat true n)) as [e | good1] eqn:E1;
    [discriminate |].
  destruct (limitLoop PrimFloat.ltb cat (requireLess self) good1) as [e | good] eqn:E2;
    [discriminate |].
  destruct (dictGet cat (column self)) as [vals |] eqn:Eget; [| discriminate].
  intros H. inversion H; subst values; clear H.
  destruct (@limitLoop_pointwise gtb cat n (requireGreater self) Hcat
              (repeat true n) good1 (repeat_length true n) E1) as [Hl1 Hp1].
  destruct (@limitLoop_pointwise PrimFloat.ltb cat n (requireLess self) Hcat
              good1 good Hl1 E2) as [Hl2 Hp2].
  assert (Hvals : length vals = n).
  { exact (@dictGet_Forall _ (fun l => length l = n) cat (column self) vals Hcat Eget). }
  split.
  - rewrite zipWith_length. lia.
  - exists vals. split; [reflexivity |].
    intros i Hi.
    rewrite (@zipWith_nth _ _ _ _ good vals i false nan nan) by lia.
    rewrite (Hp2 i Hi), (Hp1 i Hi), (nth_repeat_true Hi). reflexivity.
Qed.

(** X26: which columns the call needs. It returns exactly when the catalog
    has every column named by a limit and the column of the functor itself;
    otherwise it ends in the lookup error of a column it reads and the
    catalog lacks. *)
Theorem ColorValueInPerpRange_returns (self : ColorValueInPerpRange)
        (cat : catalog) (n : nat) :
  ((exists values, ColorValueInPerpRange_call self cat n = inr values)
   <-> (forall c, In c (columnsRead self) -> dictGet cat c <> None))
  /\
  (forall c, ColorValueInPerpRange_call self cat n = inl (KeyError c) ->
             In c (columnsRead self) /\ dictGet cat c = None).
Proof.
  unfold ColorValueInPerpRange_call, columnsRead. split.
  - split.
    + intros [values H] c Hin.
      destruct (limitLoop gtb cat (requireGreater self) (repeat true n))
        as [e | good1] eqn:E1; [discriminate |].
      destruct (limitLoop PrimFloat.ltb cat (requireLess self) good1)
        as [e | good] eqn:E2; [discriminate |].
      destruct (dictGet cat (column self)) as [vals |] eqn:Eget; [| discriminate].
      apply in_app_or in Hin. destruct Hin as [Hin | Hin].
      * exact (proj1 (limitLoop_returns gtb cat (requireGreater self) (repeat true n))
                     (ex_intro _ good1 E1) c Hin).
      * apply in_app_or in Hin. destruct Hin as [Hin | [<- | []]].
        -- exact (proj1 (limitLoop_returns PrimFloat.ltb cat (requireLess self) good1)
                        (ex_intro _ good E2) c Hin).
        -- congruence.
    + intros Hall.
      destruct (proj2 (limitLoop_returns gtb cat (requireGreater self) (repeat true n)))
        as [good1 E1].
      { intros c Hin. apply Hall. apply in_or_app. auto. }
      rewrite E1.
      destruct (proj2 (limitLoop_returns PrimFloat.ltb cat (requireLess self) good1))
        as [good E2].
      { intros c Hin. apply Hall. apply in_or_app. right. apply in_or_app. auto. }
      rewrite E2.
      destruct (dictGet cat (column self)) as [vals |] eqn:Eget.
      * eexists; reflexivity.
      * exfalso. apply (Hall (column self)); [| exact Eget].
        apply in_or_app. right. apply in_or_app. right. left. reflexivity.
  - intros c.
    destruct (limitLoop gtb cat (requireGreater self) (repeat true n))
      as [[c1] | good1] eqn:E1.
    + intros H. inversion H; subst c1.
      destruct (limitLoop_KeyError _ _ _ _ E1) as [Hin Hnone].
      split; [apply in_or_app; auto | exact Hnone].
    + destruct (limitLoop PrimFloat.ltb cat (requireLess self) good1)
        as [[c2] | good] eqn:E2.
      * intros H. inversion H; subst c2.
        destruct (limitLoop_KeyError _ _ _ _ E2) as [Hin Hnone].
        split; [apply in_or_app; right; apply in_or_app; auto | exact Hnone].
      * destruct (dictGet cat (column self)) as [vals |] eqn:Eget; [discriminate |].
        intros H. inversion H; subst c.
        split; [| exact Eget].
        apply in_or_app. right. apply in_or_app. right. left. reflexivity.
Qed.

Import String.
Local Open Scope string_scope.

Lemma ColorValueInPerpRange_pointwise_witness :
  let self := mkColorValueInPerpRange "wPerp" [("wPara", (-0.2)%float)]
                                      [("wPara", 0.6%float)] 1000%float in
  let cat := [("wPerp", [0.01; 0.02; 0.03]%float); ("wPara", [0.1; 0.7; nan]%float)] in
  exists values,
    ColorValueInPerpRange_call self cat 3 = inr values /\ List.length values = 3.
Proof.
  intros self cat.
  destruct (ColorValueInPerpRange_call self cat 3) as [e | values] eqn:E.
  - vm_compute in E. discriminate.
  - exists values. split; [reflexivity |].
    refine (proj1 (@ColorValueInPerpRange_pointwise self cat 3 values _ E)).
    repeat constructor.
Defined.

End PerpRangeFacts.
